(** * dna/main.js : auto-framing of a loaded model and its idle rotation

    A shallow embedding of the [Renderer] class of [src/dna/main.js].

    Conventions of the embedding.
    - JavaScript numbers are read as real numbers: [+], [-], [*], [/],
      [Math.abs], [Math.max], [Math.tan], [Math.PI] become the operations of
      [R].  Rounding, [NaN] and the infinities of IEEE doubles are outside
      this model.  A quotient by zero is written like any other quotient and
      never evaluated: where a statement depends on the value of a quotient,
      it assumes a positive divisor.
    - The fields of [this] that the class mutates live in the record
      [Renderer]; the calls the class makes on its collaborators (console,
      loaders, animation frame, camera, renderer, composer) from [loadModel]
      on are recorded, in program order, in the [trace] of the [World].
    - [Math.random] is an oracle: [Math_random n] is the value of the n-th
      call, and the [World] counts the calls made so far.
    - three.js is a collaborator.  [Box3.setFromObject] is a parameter of the
      development; the vector helpers used by the class are written out. *)

From Stdlib Require Import Reals Lra Psatz List String Bool.
Import ListNotations.
Open Scope string_scope.
Open Scope list_scope.
Open Scope R_scope.

(** ** three.js values used by the class *)

Module Vector3.
Record t : Type := mk { x : R; y : R; z : R }.

(** [new THREE.Vector3()] *)
Definition zero : t := mk 0 0 0.
(** [v.setScalar(s)] *)
Definition setScalar (s : R) : t := mk s s s.
(** [v.x = a], [v.y = a], [v.z = a] *)
Definition setX (v : t) (a : R) : t := mk a (y v) (z v).
Definition setY (v : t) (a : R) : t := mk (x v) a (z v).
Definition setZ (v : t) (a : R) : t := mk (x v) (y v) a.
(** [v.length()] *)
Definition length (v : t) : R := sqrt (x v * x v + y v * y v + z v * z v).
End Vector3.

Module Box3.
Record t : Type := mk { min : Vector3.t; max : Vector3.t }.

(** Modelled from the spec: three.js's [Box3.getSize] is not part of the
    repository; the size of a bounding box is [max - min], by component. *)
Definition getSize (b : t) : Vector3.t :=
  Vector3.mk (Vector3.x (max b) - Vector3.x (min b))
             (Vector3.y (max b) - Vector3.y (min b))
             (Vector3.z (max b) - Vector3.z (min b)).

(** Modelled from the spec: three.js's [Box3.getCenter] is not part of the
    repository; the center of a bounding box is [(min + max) / 2]. *)
Definition getCenter (b : t) : Vector3.t :=
  Vector3.mk ((Vector3.x (min b) + Vector3.x (max b)) / 2)
             ((Vector3.y (min b) + Vector3.y (max b)) / 2)
             ((Vector3.z (min b) + Vector3.z (max b)) / 2).
End Box3.

(** The object handed over by [OBJLoader]: its local transform and the
    vertices of its geometry, in local coordinates. *)
Module Object3D.
Record t : Type := mk {
  position : Vector3.t;
  rotation : Vector3.t;   (* Euler angles, order XYZ *)
  scale    : Vector3.t;
  vertices : list Vector3.t
}.

Definition set_position (o : t) (p : Vector3.t) : t :=
  mk p (rotation o) (scale o) (vertices o).
Definition set_rotation (o : t) (r : Vector3.t) : t :=
  mk (position o) r (scale o) (vertices o).
Definition set_scale (o : t) (s : Vector3.t) : t :=
  mk (position o) (rotation o) s (vertices o).
End Object3D.

(** [THREE.Group]: a transform node with children. *)
Module Group.
Record t : Type := mk {
  position : Vector3.t;
  rotation : Vector3.t;
  scale    : Vector3.t;
  children : list Object3D.t
}.

(** [new THREE.Group()] *)
Definition new : t :=
  mk Vector3.zero Vector3.zero (Vector3.setScalar 1) [].

Definition set_position (g : t) (p : Vector3.t) : t :=
  mk p (rotation g) (scale g) (children g).
Definition set_rotation (g : t) (r : Vector3.t) : t :=
  mk (position g) r (scale g) (children g).
(** [g.add(o)] *)
Definition add (g : t) (o : Object3D.t) : t :=
  mk (position g) (rotation g) (scale g) (children g ++ [o]).
End Group.

(** [THREE.PerspectiveCamera]; [fov] is in degrees. *)
Module PerspectiveCamera.
Record t : Type := mk {
  fov : R;
  aspect : R;
  near : R;
  far : R;
  position : Vector3.t
}.

Definition set_aspect (c : t) (a : R) : t :=
  mk (fov c) a (near c) (far c) (position c).
End PerspectiveCamera.

(** [Math.max(a, b, c)] *)
Definition Math_max (a b c : R) : R := Rmax (Rmax a b) c.

(** ** The state of the class and of its environment *)

(** What [this.scene] holds.  The pivot is held by reference: the scene sees
    whatever [this.pivot] currently is. *)
Inductive SceneNode : Type :=
| AmbientLight (color : Z) (intensity : R)
| DirectionalLight (color : Z) (intensity : R) (position : Vector3.t)
| PivotNode.

Record Renderer : Type := mkRenderer {
  scene : list SceneNode;
  model : option Object3D.t;
  pivot : option Group.t;
  rotationSpeed : R;
  targetRotation : R;
  screenHeight : R;
  camera : PerspectiveCamera.t;
  isAnimating : bool
}.

(** Arguments of a console call. *)
Inductive Arg : Type :=
| ArgVector (v : Vector3.t)    (* [this.vectorToString(v)] *)
| ArgNumber (r : R)
| ArgError (e : string).

(** Calls on the collaborators, as they happen. *)
Inductive Event : Type :=
| ConsoleLog (text : string) (args : list Arg)
| ConsoleError (text : string) (args : list Arg)
| MTLLoader_load (url : string)
| Materials_preload
| OBJLoader_load (url : string)
| RequestAnimationFrame
| Composer_render
| Camera_updateProjectionMatrix
| Renderer_setSize (width height : R)
| Composer_setSize (width height : R).

Record World : Type := mkWorld {
  this : Renderer;
  trace : list Event;
  randomCalls : nat
}.

(** ** A state monad over the world *)

Definition M (A : Type) : Type := World -> A * World.

Definition ret {A : Type} (a : A) : M A := fun w => (a, w).

Definition bind {A B : Type} (m : M A) (k : A -> M B) : M B :=
  fun w => let (a, w') := m w in k a w'.

Notation "x <- m ;; k" := (bind m (fun x => k))
  (at level 61, m at next level, right associativity).
Notation "m ;; k" := (bind m (fun _ => k))
  (at level 61, right associativity).

Definition exec {A : Type} (m : M A) (w : World) : World := snd (m w).

Definition getThis : M Renderer := fun w => (this w, w).

Definition modifyThis (f : Renderer -> Renderer) : M unit :=
  fun w => (tt, mkWorld (f (this w)) (trace w) (randomCalls w)).

Definition emit (e : Event) : M unit :=
  fun w => (tt, mkWorld (this w) (trace w ++ [e]) (randomCalls w)).

Definition console_log (text : string) (args : list Arg) : M unit :=
  emit (ConsoleLog text args).

Definition console_error (text : string) (args : list Arg) : M unit :=
  emit (ConsoleError text args).

Fixpoint forEach {A : Type} (f : A -> M unit) (l : list A) : M unit :=
  match l with
  | [] => ret tt
  | a :: l' => f a ;; forEach f l'
  end.

(** Field assignments on [this]. *)
Definition set_model (m : option Object3D.t) (r : Renderer) : Renderer :=
  mkRenderer (scene r) m (pivot r) (rotationSpeed r) (targetRotation r)
             (screenHeight r) (camera r) (isAnimating r).
Definition set_pivot (p : option Group.t) (r : Renderer) : Renderer :=
  mkRenderer (scene r) (model r) p (rotationSpeed r) (targetRotation r)
             (screenHeight r) (camera r) (isAnimating r).
Definition set_targetRotation (a : R) (r : Renderer) : Renderer :=
  mkRenderer (scene r) (model r) (pivot r) (rotationSpeed r) a
             (screenHeight r) (camera r) (isAnimating r).
Definition set_isAnimating (b : bool) (r : Renderer) : Renderer :=
  mkRenderer (scene r) (model r) (pivot r) (rotationSpeed r) (targetRotation r)
             (screenHeight r) (camera r) b.
Definition set_camera (c : PerspectiveCamera.t) (r : Renderer) : Renderer :=
  mkRenderer (scene r) (model r) (pivot r) (rotationSpeed r) (targetRotation r)
             (screenHeight r) c (isAnimating r).
(** [this.scene.add(n)] *)
Definition scene_add (n : SceneNode) (r : Renderer) : Renderer :=
  mkRenderer (scene r ++ [n]) (model r) (pivot r) (rotationSpeed r)
             (targetRotation r) (screenHeight r) (camera r) (isAnimating r).

(** ** Results of the asynchronous loaders *)

(** The [xhr] argument of a progress callback. *)
Record ProgressEvent : Type := mkProgress { loaded : R; total : R }.

Inductive Settled (A : Type) : Type :=
| OnLoad (a : A)
| OnError (error : string).
Arguments OnLoad {A} a.
Arguments OnError {A} error.

(** What a [load(url, onLoad, onProgress, onError)] call delivers: some
    progress callbacks, then exactly one of [onLoad] and [onError]. *)
Record Load (A : Type) : Type := mkLoad {
  progress : list ProgressEvent;
  settled : Settled A
}.
Arguments mkLoad {A} progress settled.
Arguments progress {A} l.
Arguments settled {A} l.

(** ** The class *)

Section Renderer.

(** The decoded material library; opaque to the class. *)
Variable Materials : Type.

(** [new THREE.Box3().setFromObject(object)]: the world-space bounding box
    of [object] under its current transform.  The first argument is the
    node the object is attached to, if any. *)
Variable setFromObject : option Group.t -> Object3D.t -> Box3.t.

(** The successive values of [Math.random()]. *)
Variable Math_random : nat -> R.

(** The network, as seen through [MTLLoader] and [OBJLoader]. *)
Record Loaders : Type := mkLoaders {
  mtl : string -> Load Materials;
  obj : string -> Materials -> Load Object3D.t
}.

(** [Math.random()] *)
Definition random : M R :=
  fun w => (Math_random (randomCalls w),
            mkWorld (this w) (trace w) (S (randomCalls w))).

(** [vectorToString(v)]: the printed text stands for the vector it prints
    (the two-decimal rendering is not modelled). *)
Definition vectorToString (v : Vector3.t) : Arg := ArgVector v.

(** Lines 153-154: the world-space height visible at the origin plane. *)
Definition viewportHeight (camera : PerspectiveCamera.t) : R :=
  let vFOV := PerspectiveCamera.fov camera * PI / 180 in
  2 * tan (vFOV / 2) * Vector3.length (PerspectiveCamera.position camera).

(** [this.pivot.rotation.z = a] on an existing pivot. *)
Definition set_pivot_rotation_z (a : R) (r : Renderer) : Renderer :=
  match pivot r with
  | None => r
  | Some p =>
      set_pivot
        (Some (Group.set_rotation p (Vector3.setZ (Group.rotation p) a))) r
  end.

(** Lines 109-123. *)
Definition updateRotation : M unit :=
  r <- getThis ;;
  match pivot r with
  | None => ret tt
  | Some p =>
      (* Check if we need a new target rotation *)
      (if Rlt_dec (Rabs (Vector3.z (Group.rotation p) - targetRotation r))
                  0.001
       then
         u1 <- random ;;
         let newAngle := (u1 * 13 + 3) * PI / 180 in
         u2 <- random ;;
         modifyThis
           (set_targetRotation
              (Vector3.z (Group.rotation p)
               + (if Rgt_dec u2 0.5 then newAngle else - newAngle)))
       else ret tt) ;;
      (* Smoothly interpolate to target rotation *)
      let rotationSpeed := 0.0015 in
      r' <- getThis ;;
      modifyThis
        (set_pivot_rotation_z
           (Vector3.z (Group.rotation p)
            + (targetRotation r' - Vector3.z (Group.rotation p))
              * rotationSpeed))
  end.

(** Lines 230-234.  The frame requested here is delivered by the browser;
    each delivered frame runs [animate] again. *)
Definition animate : M unit :=
  emit RequestAnimationFrame ;;
  updateRotation ;;
  emit Composer_render.

(** [n] frames in a row. *)
Fixpoint frames (n : nat) : M unit :=
  match n with
  | O => ret tt
  | S n' => animate ;; frames n'
  end.

(** Lines 206-208 and 214-216. *)
Definition onProgress (xhr : ProgressEvent) : M unit :=
  console_log "% loaded" [ArgNumber (loaded xhr / total xhr * 100)].

(** Lines 141-205: the success callback of the mesh load. *)
Definition onObjLoad (object : Object3D.t) : M unit :=
  console_log "OBJ loaded successfully" [] ;;
  (* Get original size and center *)
  let box := setFromObject None object in
  let size := Box3.getSize box in
  let center := Box3.getCenter box in
  console_log "Original size:" [vectorToString size] ;;
  console_log "Original center:" [vectorToString center] ;;
  (* Calculate viewport height at camera distance *)
  r <- getThis ;;
  let viewportHeight := viewportHeight (camera r) in
  let targetSize := viewportHeight * 3.2 in
  (* Scale to fit viewport *)
  let maxDim :=
    Math_max (Vector3.x size) (Vector3.y size) (Vector3.z size) in
  let scale := targetSize / maxDim in
  let object := Object3D.set_scale object (Vector3.setScalar scale) in
  (* Reset position and rotation *)
  let object := Object3D.set_position object (Vector3.mk 0 0 0) in
  let object := Object3D.set_rotation object (Vector3.mk 0 0 0) in
  (* First rotate to lay flat *)
  let object :=
    Object3D.set_rotation object
      (Vector3.setX (Object3D.rotation object) (- PI / 2)) in
  let object :=
    Object3D.set_rotation object
      (Vector3.setY (Object3D.rotation object) (PI / 2)) in
  (* Get new bounds after initial transformations *)
  let rotatedBox := setFromObject None object in
  let rotatedCenter := Box3.getCenter rotatedBox in
  let rotatedSize := Box3.getSize rotatedBox in
  (* Calculate 40% of viewport height for downward shift *)
  let viewportShift := viewportHeight * 0.4 in
  (* Create pivot at model's center *)
  let pivot :=
    Group.set_position Group.new
      (Vector3.mk (- Vector3.x rotatedCenter)
                  (Vector3.y rotatedSize / 2 - viewportShift)
                  (- Vector3.z rotatedCenter)) in
  modifyThis (set_pivot (Some pivot)) ;;
  (* Add pivot to scene *)
  modifyThis (scene_add PivotNode) ;;
  (* Add model to pivot *)
  let pivot := Group.add pivot object in
  modifyThis (set_pivot (Some pivot)) ;;
  (* Store reference to model *)
  modifyThis (set_model (Some object)) ;;
  (* Log final dimensions *)
  let finalBox := setFromObject (Some pivot) object in
  let finalSize := Box3.getSize finalBox in
  console_log "Final size:" [vectorToString finalSize] ;;
  (* Start animation *)
  r <- getThis ;;
  if negb (isAnimating r)
  then modifyThis (set_isAnimating true) ;; animate
  else ret tt.

(** Lines 125-221. *)
Definition loadModel (net : Loaders) : M unit :=
  console_log "Starting model load..." [] ;;
  let basePath := "./static/sceneone/" in
  emit (MTLLoader_load (basePath ++ "obj.mtl")%string) ;;
  let mtlLoad := mtl net (basePath ++ "obj.mtl")%string in
  forEach onProgress (progress mtlLoad) ;;
  match settled mtlLoad with
  | OnError error => console_error "Error loading MTL:" [ArgError error]
  | OnLoad materials =>
      console_log "MTL loaded successfully" [] ;;
      emit Materials_preload ;;
      emit (OBJLoader_load (basePath ++ "obj.obj")%string) ;;
      let objLoad := obj net (basePath ++ "obj.obj")%string materials in
      forEach onProgress (progress objLoad) ;;
      match settled objLoad with
      | OnError error => console_error "Error loading OBJ:" [ArgError error]
      | OnLoad object => onObjLoad object
      end
  end.

(** Lines 223-228. *)
Definition onWindowResize (innerWidth : R) : M unit :=
  modifyThis (fun r =>
    set_camera (PerspectiveCamera.set_aspect (camera r)
                  (innerWidth / screenHeight r)) r) ;;
  emit Camera_updateProjectionMatrix ;;
  r <- getThis ;;
  emit (Renderer_setSize innerWidth (screenHeight r)) ;;
  r <- getThis ;;
  emit (Composer_setSize innerWidth (screenHeight r)).

(** Lines 9-20 and 26-103: the state in which the constructor calls
    [loadModel].  The trace starts here; the calls of the setup methods
    come before it. *)
Definition constructed (innerWidth height : R) : World :=
  mkWorld
    (mkRenderer
       [AmbientLight 16777215%Z 0.5;
        DirectionalLight 16777215%Z 1.0 (Vector3.mk 5 5 5);
        DirectionalLight 16777215%Z 0.5 (Vector3.mk (-5) (-2) (-5))]
       None None 0 0 height
       (PerspectiveCamera.mk 18 (innerWidth / height) 0.1 1000
          (Vector3.mk 2 0 0))
       false)
    [] 0.

(** Lines 9-24. *)
Definition constructor (innerWidth height : R) (net : Loaders) : World :=
  exec (loadModel net) (constructed innerWidth height).

End Renderer.

Arguments mtl {Materials} l url.
Arguments obj {Materials} l url materials.
Arguments mkLoaders {Materials} mtl obj.
Arguments loadModel {Materials} setFromObject Math_random net.
Arguments constructor {Materials} setFromObject Math_random innerWidth height net.


(** ** A bounds collaborator for concrete runs

    Closed examples need an actual [setFromObject].  This one follows
    three.js for an object with one geometry: the box of the vertices is
    taken in local coordinates, its eight corners are carried to world
    coordinates by scale, rotation (Euler order XYZ) and translation, and
    the result is the box of those corners.  The parent is not consulted:
    between the creation of the pivot and the first render its world matrix
    is still the identity. *)

Module PointCloud.

(** The rotation matrix of Euler angles [e], applied to [v]. *)
Definition applyEuler (e v : Vector3.t) : Vector3.t :=
  let a := cos (Vector3.x e) in
  let b := sin (Vector3.x e) in
  let c := cos (Vector3.y e) in
  let d := sin (Vector3.y e) in
  let e' := cos (Vector3.z e) in
  let f := sin (Vector3.z e) in
  let vx := Vector3.x v in
  let vy := Vector3.y v in
  let vz := Vector3.z v in
  Vector3.mk
    (c * e' * vx - c * f * vy + d * vz)
    ((a * f + b * e' * d) * vx + (a * e' - b * f * d) * vy - b * c * vz)
    ((b * f - a * e' * d) * vx + (b * e' + a * f * d) * vy + a * c * vz).

(** A local vertex in world coordinates. *)
Definition localToWorld (o : Object3D.t) (v : Vector3.t) : Vector3.t :=
  let s := Object3D.scale o in
  let scaled :=
    Vector3.mk (Vector3.x s * Vector3.x v) (Vector3.y s * Vector3.y v)
               (Vector3.z s * Vector3.z v) in
  let turned := applyEuler (Object3D.rotation o) scaled in
  let p := Object3D.position o in
  Vector3.mk (Vector3.x turned + Vector3.x p) (Vector3.y turned + Vector3.y p)
             (Vector3.z turned + Vector3.z p).

Definition expandByPoint (b : Box3.t) (p : Vector3.t) : Box3.t :=
  Box3.mk
    (Vector3.mk (Rmin (Vector3.x (Box3.min b)) (Vector3.x p))
                (Rmin (Vector3.y (Box3.min b)) (Vector3.y p))
                (Rmin (Vector3.z (Box3.min b)) (Vector3.z p)))
    (Vector3.mk (Rmax (Vector3.x (Box3.max b)) (Vector3.x p))
                (Rmax (Vector3.y (Box3.max b)) (Vector3.y p))
                (Rmax (Vector3.z (Box3.max b)) (Vector3.z p))).

(** A mesh without vertices is given the degenerate box at the origin. *)
Definition setFromPoints (l : list Vector3.t) : Box3.t :=
  match l with
  | [] => Box3.mk Vector3.zero Vector3.zero
  | p :: l' => fold_left expandByPoint l' (Box3.mk p p)
  end.

(** [geometry.computeBoundingBox()]: the box of the vertices, in local
    coordinates. *)
Definition computeBoundingBox (o : Object3D.t) : Box3.t :=
  setFromPoints (Object3D.vertices o).

(** The eight corners of a box, in the order of [Box3.applyMatrix4]. *)
Definition corners (b : Box3.t) : list Vector3.t :=
  let lo := Box3.min b in
  let hi := Box3.max b in
  [Vector3.mk (Vector3.x lo) (Vector3.y lo) (Vector3.z lo);
   Vector3.mk (Vector3.x lo) (Vector3.y lo) (Vector3.z hi);
   Vector3.mk (Vector3.x lo) (Vector3.y hi) (Vector3.z lo);
   Vector3.mk (Vector3.x lo) (Vector3.y hi) (Vector3.z hi);
   Vector3.mk (Vector3.x hi) (Vector3.y lo) (Vector3.z lo);
   Vector3.mk (Vector3.x hi) (Vector3.y lo) (Vector3.z hi);
   Vector3.mk (Vector3.x hi) (Vector3.y hi) (Vector3.z lo);
   Vector3.mk (Vector3.x hi) (Vector3.y hi) (Vector3.z hi)].

(** [box.applyMatrix4(object.matrixWorld)]: the box of the corners of [b]
    in world coordinates. *)
Definition applyMatrix4 (o : Object3D.t) (b : Box3.t) : Box3.t :=
  setFromPoints (map (localToWorld o) (corners b)).

Definition setFromObject (_ : option Group.t) (o : Object3D.t) : Box3.t :=
  match Object3D.vertices o with
  | [] => Box3.mk Vector3.zero Vector3.zero
  | _ :: _ => applyMatrix4 o (computeBoundingBox o)
  end.

End PointCloud.

(** ** The contract of the viewport metrics, as the specification words it *)




(** ** Auxiliary definitions for the statements *)

(** The target a tick works towards when the pivot is [p]: lines 113-118,
    with the two draws named. *)
Definition nextTarget (Math_random : nat -> R) (w : World) (p : Group.t) : R :=
  let current := Vector3.z (Group.rotation p) in
  let target := targetRotation (this w) in
  if Rlt_dec (Rabs (current - target)) 0.001
  then
    let newAngle := (Math_random (randomCalls w) * 13 + 3) * PI / 180 in
    current + (if Rgt_dec (Math_random (S (randomCalls w))) 0.5
               then newAngle else - newAngle)
  else target.

(** The scale factor of lines 153-159 for [object] seen by [camera]. *)
Definition frameScale
  (setFromObject : option Group.t -> Object3D.t -> Box3.t)
  (camera : PerspectiveCamera.t) (object : Object3D.t) : R :=
  let size := Box3.getSize (setFromObject None object) in
  viewportHeight camera * 3.2
  / Math_max (Vector3.x size) (Vector3.y size) (Vector3.z size).

(** The object after lines 160-168: scaled, moved to the origin, laid flat. *)
Definition placedObject
  (setFromObject : option Group.t -> Object3D.t -> Box3.t)
  (camera : PerspectiveCamera.t) (object : Object3D.t) : Object3D.t :=
  Object3D.mk (Vector3.mk 0 0 0) (Vector3.mk (- PI / 2) (PI / 2) 0)
    (Vector3.setScalar (frameScale setFromObject camera object))
    (Object3D.vertices object).

(** The pivot after lines 171-190. *)
Definition framedPivot
  (setFromObject : option Group.t -> Object3D.t -> Box3.t)
  (camera : PerspectiveCamera.t) (object : Object3D.t) : Group.t :=
  let placed := placedObject setFromObject camera object in
  let rotatedBox := setFromObject None placed in
  Group.mk
    (Vector3.mk (- Vector3.x (Box3.getCenter rotatedBox))
                (Vector3.y (Box3.getSize rotatedBox) / 2
                 - viewportHeight camera * 0.4)
                (- Vector3.z (Box3.getCenter rotatedBox)))
    Vector3.zero (Vector3.setScalar 1) [placed].

(** The world when the success callback reaches line 200. *)
Definition framedWorld
  (setFromObject : option Group.t -> Object3D.t -> Box3.t)
  (object : Object3D.t) (w : World) : World :=
  let r := this w in
  let placed := placedObject setFromObject (camera r) object in
  let pivot := framedPivot setFromObject (camera r) object in
  mkWorld
    (mkRenderer (scene r ++ [PivotNode]) (Some placed) (Some pivot)
       (rotationSpeed r) (targetRotation r) (screenHeight r) (camera r)
       (isAnimating r))
    (trace w ++
     [ConsoleLog "OBJ loaded successfully" [];
      ConsoleLog "Original size:"
        [ArgVector (Box3.getSize (setFromObject None object))];
      ConsoleLog "Original center:"
        [ArgVector (Box3.getCenter (setFromObject None object))];
      ConsoleLog "Final size:"
        [ArgVector (Box3.getSize (setFromObject (Some pivot) placed))]])
    (randomCalls w).



(** Section 4.3, step 3, as the specification words it: when the largest
    dimension is not positive, framing is aborted and no pivot is created. *)
Definition spec_degenerate_aborts
  (setFromObject : option Group.t -> Object3D.t -> Box3.t)
  (Math_random : nat -> R) (object : Object3D.t) (w : World) : Prop :=
  let size := Box3.getSize (setFromObject None object) in
  Math_max (Vector3.x size) (Vector3.y size) (Vector3.z size) <= 0 ->
  pivot (this w) = None ->
  pivot (this (exec (onObjLoad setFromObject Math_random object) w)) = None.


(** ** Concrete inputs *)

(** The camera of the class (line 33-39) on a 1920 x 1080 screen. *)
Definition camera18 : PerspectiveCamera.t :=
  PerspectiveCamera.mk 18 (1920 / 1080) 0.1 1000 (Vector3.mk 2 0 0).

(** A viewer whose pivot exists, at rest: current and target angle are 0. *)
Definition restingWorld : World :=
  mkWorld
    (mkRenderer [PivotNode] None (Some Group.new) 0 0 1080 camera18 true)
    [] 0.

(** A viewer on its way: current angle 0, target angle 0.1 rad. *)
Definition approachingWorld : World :=
  mkWorld
    (mkRenderer [PivotNode] None (Some Group.new) 0 0.1 1080 camera18 true)
    [] 0.

(** A camera with a 90 degree field of view at distance [d] on the x axis:
    the visible height at the origin is [2 * d]. *)
Definition camera90 (d : R) : PerspectiveCamera.t :=
  PerspectiveCamera.mk 90 (1920 / 1080) 0.1 1000 (Vector3.mk d 0 0).

(** The world of a freshly constructed viewer that looks through [cam]. *)
Definition freshWorld (cam : PerspectiveCamera.t) : World :=
  mkWorld (mkRenderer [] None None 0 0 1080 cam false) [] 0.

(** A mesh as [OBJLoader] hands it over: identity transform. *)
Definition delivered (vertices : list Vector3.t) : Object3D.t :=
  Object3D.mk Vector3.zero Vector3.zero (Vector3.setScalar 1) vertices.

(** The mesh of the scenario: bounding box from (-1,-1,-1) to (1,1,1). *)
Definition cube : Object3D.t :=
  delivered [Vector3.mk (-1) (-1) (-1); Vector3.mk 1 1 1].

(** A mesh that is not symmetric: bounding box from (0,0,0) to (2,4,8). *)
Definition slab : Object3D.t :=
  delivered [Vector3.mk 0 0 0; Vector3.mk 2 4 8].

(** A mesh with a single vertex: its bounding box has [min = max = (0,0,0)]. *)
Definition dot : Object3D.t :=
  delivered [Vector3.mk 0 0 0].

(** A network on which the material file cannot be fetched. *)
Definition mtlFails : Loaders unit :=
  mkLoaders
    (fun _ => mkLoad [mkProgress 10 100] (OnError "404"))
    (fun _ _ => mkLoad [] (OnLoad cube)).

(** A network on which the material arrives and the mesh file does not. *)
Definition objFails : Loaders unit :=
  mkLoaders
    (fun _ => mkLoad [mkProgress 100 100] (OnLoad tt))
    (fun _ _ => mkLoad [mkProgress 10 100] (OnError "404")).

(** ** The grayscale pass

    Lines 63-83: the fragment shader of the post-processing pass.  GLSL
    floats are read as real numbers, like the numbers of the class. *)

Module GrayscaleShader.

Record vec4 : Type := mk { r : R; g : R; b : R; a : R }.

(** [color.rgb] *)
Definition rgb (color : vec4) : Vector3.t :=
  Vector3.mk (r color) (g color) (b color).

(** GLSL [dot(u, v)] on [vec3]. *)
Definition dot (u v : Vector3.t) : R :=
  Vector3.x u * Vector3.x v + Vector3.y u * Vector3.y v
  + Vector3.z u * Vector3.z v.

(** Lines 77-81: [main] of the fragment shader.  [tDiffuse] is the image
    the previous pass rendered, as [texture2D] samples it; the result is
    [gl_FragColor]. *)
Definition fragmentShader (tDiffuse : R * R -> vec4) (vUv : R * R) : vec4 :=
  let color := tDiffuse vUv in
  let gray := dot (rgb color) (Vector3.mk 0.299 0.587 0.114) in
  mk gray gray gray (a color).

End GrayscaleShader.

(** ** Further inputs *)

(** Resize events delivered one after the other (line 23). *)
Definition resizes (innerWidths : list R) : M unit :=
  forEach onWindowResize innerWidths.

(** A network on which both files arrive. *)
Definition bothLoad : Loaders unit :=
  mkLoaders
    (fun _ => mkLoad [mkProgress 100 100] (OnLoad tt))
    (fun _ _ => mkLoad [mkProgress 50 100; mkProgress 100 100] (OnLoad cube)).

(** A viewer that is animating and whose pivot trails its target. *)
Definition animatingWorld : World :=
  mkWorld
    (mkRenderer [PivotNode] (Some cube) (Some (Group.add Group.new cube))
       0 0.1 1080 camera18 true)
    [] 0.

(** An image of one colour. *)
Definition flatImage (color : GrayscaleShader.vec4)
  : R * R -> GrayscaleShader.vec4 :=
  fun _ => color.

(** ** Basic facts about the monad and the collaborators *)

Lemma forEach_onProgress (l : list ProgressEvent) (w : World) :
  forEach onProgress l w =
  (tt, mkWorld (this w)
         (trace w ++ map (fun xhr =>
            ConsoleLog "% loaded" [ArgNumber (loaded xhr / total xhr * 100)]) l)
         (randomCalls w)).
Proof.
  revert w. induction l as [|xhr l IH]; intros w.
  - simpl. unfold ret. rewrite app_nil_r. destruct w; reflexivity.
  - cbn [forEach map]. unfold bind at 1.
    unfold onProgress, console_log, emit at 1.
    rewrite IH. cbn [this trace randomCalls].
    rewrite <- app_assoc. reflexivity.
Qed.

(** The angles the class uses. *)
Lemma PI_gt_3 : 3 < PI.
Proof. pose proof PI2_3_2. lra. Qed.

Lemma cos_neg_PI2 : cos (- PI / 2) = 0.
Proof.
  replace (- PI / 2) with (- (PI / 2)) by lra.
  rewrite cos_neg. apply cos_PI2.
Qed.

Lemma sin_neg_PI2 : sin (- PI / 2) = -1.
Proof.
  replace (- PI / 2) with (- (PI / 2)) by lra.
  rewrite sin_neg, sin_PI2. reflexivity.
Qed.

(** ** The idle rotation animator *)

Section Animator.

Variable Math_random : nat -> R.
Variable w : World.
Variable p : Group.t.
Hypothesis has_pivot : pivot (this w) = Some p.

Let current : R := Vector3.z (Group.rotation p).
Let target : R := targetRotation (this w).
Let next : R := nextTarget Math_random w p.

Lemma updateRotation_target :
  targetRotation (this (exec (updateRotation Math_random) w)) = next.
Proof.
  unfold exec, updateRotation, bind, getThis, next, nextTarget,
    current, target.
  rewrite has_pivot.
  destruct (Rlt_dec _ _); unfold random, modifyThis, ret; cbn;
    unfold set_pivot_rotation_z; cbn; rewrite has_pivot; reflexivity.
Qed.

Lemma updateRotation_pivot :
  pivot (this (exec (updateRotation Math_random) w)) =
  Some (Group.set_rotation p
          (Vector3.setZ (Group.rotation p)
             (current + (next - current) * 0.0015))).
Proof.
  unfold exec, updateRotation, bind, getThis, next, nextTarget,
    current, target.
  rewrite has_pivot.
  destruct (Rlt_dec _ _); unfold random, modifyThis, ret; cbn;
    unfold set_pivot_rotation_z; cbn; rewrite has_pivot; reflexivity.
Qed.

Lemma updateRotation_frame :
  let w' := exec (updateRotation Math_random) w in
  scene (this w') = scene (this w) /\
  model (this w') = model (this w) /\
  camera (this w') = camera (this w) /\
  isAnimating (this w') = isAnimating (this w) /\
  trace w' = trace w.
Proof.
  unfold exec, updateRotation, bind, getThis.
  rewrite has_pivot.
  destruct (Rlt_dec _ _); unfold random, modifyThis, ret; cbn;
    unfold set_pivot_rotation_z; cbn; rewrite has_pivot; cbn;
    repeat split; reflexivity.
Qed.

End Animator.

(** C10.  While [this.pivot] is null, a tick of the animator returns at once
    and leaves the whole world as it was: the renderer's fields (current and
    target rotation included), the trace and the random source. *)
Theorem updateRotation_without_pivot :
  forall (Math_random : nat -> R) (w : World),
    pivot (this w) = None ->
    updateRotation Math_random w = (tt, w).
Proof.
  intros Math_random w Hnone.
  unfold updateRotation, bind, getThis. rewrite Hnone. reflexivity.
Qed.

Lemma updateRotation_without_pivot_witness :
  updateRotation (fun _ => 0.25) (constructed 1920 1080)
  = (tt, constructed 1920 1080).
Proof.
  apply (updateRotation_without_pivot (fun _ => 0.25) (constructed 1920 1080)).
  reflexivity.
Defined.

(** The magnitude drawn by line 115 lies between 3 and 16 degrees. *)
Lemma newAngle_range (u : R) :
  0 <= u < 1 ->
  3 * PI / 180 <= (u * 13 + 3) * PI / 180 <= 16 * PI / 180.
Proof.
  intros [H0 H1]. pose proof PI_gt_3 as HPI. split; nra.
Qed.

(** C4.  With a pivot in place and [Math.random] in [0,1), one tick replaces
    the target exactly when [|current - target| < 0.001]; the new target is
    then [current + sign * delta] with [sign] one of [1], [-1] and [delta]
    between 3 and 16 degrees, in radians. *)
Theorem updateRotation_new_target :
  forall (Math_random : nat -> R) (w : World) (p : Group.t),
    (forall n, 0 <= Math_random n < 1) ->
    pivot (this w) = Some p ->
    let current := Vector3.z (Group.rotation p) in
    let target := targetRotation (this w) in
    let target' :=
      targetRotation (this (exec (updateRotation Math_random) w)) in
    (target' <> target <-> Rabs (current - target) < 0.001) /\
    (Rabs (current - target) < 0.001 ->
     exists sign delta : R,
       (sign = 1 \/ sign = -1) /\
       3 * PI / 180 <= delta <= 16 * PI / 180 /\
       target' = current + sign * delta).
Proof.
  intros Math_random w p Hrange Hpivot current target target'.
  assert (Htarget : target' = nextTarget Math_random w p)
    by (apply updateRotation_target; exact Hpivot).
  unfold nextTarget in Htarget. fold current target in Htarget.
  pose proof (newAngle_range _ (Hrange (randomCalls w))) as Hdelta.
  pose proof PI_gt_3 as HPI.
  destruct (Rlt_dec (Rabs (current - target)) 0.001) as [Hconv | Hfar].
  - set (delta := (Math_random (randomCalls w) * 13 + 3) * PI / 180) in *.
    pose proof (Rabs_def2 _ _ Hconv) as [Hlo Hhi].
    split.
    + split; [intros _; exact Hconv | intros _].
      rewrite Htarget.
      destruct (Rgt_dec (Math_random (S (randomCalls w))) 0.5); lra.
    + intros _.
      destruct (Rgt_dec (Math_random (S (randomCalls w))) 0.5).
      * exists 1, delta. repeat split; try tauto; try lra.
      * exists (-1), delta. repeat split; try tauto; try lra.
  - split.
    + split; [intros Hneq; contradiction | intros Hlt; contradiction].
    + intros Hlt. contradiction.
Qed.

Lemma updateRotation_new_target_witness :
  let target' :=
    targetRotation (this (exec (updateRotation (fun _ => 0.75)) restingWorld)) in
  (target' <> 0 <-> Rabs (0 - 0) < 0.001) /\
  (Rabs (0 - 0) < 0.001 ->
   exists sign delta : R,
     (sign = 1 \/ sign = -1) /\
     3 * PI / 180 <= delta <= 16 * PI / 180 /\
     target' = 0 + sign * delta).
Proof.
  apply (updateRotation_new_target (fun _ => 0.75) restingWorld Group.new).
  - intros n. lra.
  - reflexivity.
Defined.

(** C5.  With a pivot in place and [|current - target| >= 0.001], one tick
    keeps the target and moves current by [(target - current) * 0.0015]: the
    remaining distance is 0.9985 times the old one, strictly smaller, not
    zero, and on the same side of the target. *)
Theorem updateRotation_approach :
  forall (Math_random : nat -> R) (w : World) (p : Group.t),
    pivot (this w) = Some p ->
    let current := Vector3.z (Group.rotation p) in
    let target := targetRotation (this w) in
    Rabs (current - target) >= 0.001 ->
    let w' := exec (updateRotation Math_random) w in
    targetRotation (this w') = target /\
    exists p' : Group.t,
      pivot (this w') = Some p' /\
      let current' := Vector3.z (Group.rotation p') in
      current' = current + (target - current) * 0.0015 /\
      target - current' = 0.9985 * (target - current) /\
      Rabs (target - current') = 0.9985 * Rabs (target - current) /\
      Rabs (target - current') < Rabs (target - current) /\
      target - current' <> 0 /\
      (0 < target - current -> 0 < target - current') /\
      (target - current < 0 -> target - current' < 0).
Proof.
  intros Math_random w p Hpivot current target Hfar w'.
  assert (Hnext : nextTarget Math_random w p = target).
  { unfold nextTarget. fold current target.
    destruct (Rlt_dec (Rabs (current - target)) 0.001); [lra | reflexivity]. }
  split.
  - unfold w'. rewrite (updateRotation_target Math_random w p Hpivot).
    exact Hnext.
  - eexists. split.
    + unfold w'. rewrite (updateRotation_pivot Math_random w p Hpivot).
      reflexivity.
    + cbn [Group.set_rotation Group.rotation Vector3.setZ Vector3.z].
      rewrite Hnext. fold current.
      assert (Hstep : target - (current + (target - current) * 0.0015)
                      = 0.9985 * (target - current)) by lra.
      assert (Hdist : 0.001 <= Rabs (target - current)).
      { rewrite Rabs_minus_sym. lra. }
      repeat split.
      * exact Hstep.
      * rewrite Hstep, Rabs_mult, (Rabs_right 0.9985); [reflexivity | lra].
      * rewrite Hstep, Rabs_mult, (Rabs_right 0.9985); lra.
      * rewrite Hstep. intros Hzero.
        assert (target - current = 0) by lra.
        rewrite H, Rabs_R0 in Hdist. lra.
      * lra.
      * lra.
Qed.

Lemma Rabs_far_example : Rabs (0 - 0.1) >= 0.001.
Proof.
  unfold Rabs. destruct (Rcase_abs (0 - 0.1)); lra.
Defined.

Lemma updateRotation_approach_witness :
  let w' := exec (updateRotation (fun _ => 0.75)) approachingWorld in
  targetRotation (this w') = 0.1 /\
  exists p' : Group.t,
    pivot (this w') = Some p' /\
    let current' := Vector3.z (Group.rotation p') in
    current' = 0 + (0.1 - 0) * 0.0015 /\
    0.1 - current' = 0.9985 * (0.1 - 0) /\
    Rabs (0.1 - current') = 0.9985 * Rabs (0.1 - 0) /\
    Rabs (0.1 - current') < Rabs (0.1 - 0) /\
    0.1 - current' <> 0 /\
    (0 < 0.1 - 0 -> 0 < 0.1 - current') /\
    (0.1 - 0 < 0 -> 0.1 - current' < 0).
Proof.
  apply (updateRotation_approach (fun _ => 0.75) approachingWorld Group.new).
  - reflexivity.
  - exact Rabs_far_example.
Defined.

(** One frame: the tick between two calls on the collaborators. *)
Lemma exec_animate (Math_random : nat -> R) (w : World) :
  exec (animate Math_random) w =
  let w1 := mkWorld (this w) (trace w ++ [RequestAnimationFrame])
              (randomCalls w) in
  let w2 := exec (updateRotation Math_random) w1 in
  mkWorld (this w2) (trace w2 ++ [Composer_render]) (randomCalls w2).
Proof.
  unfold animate, exec, bind, emit. cbn [this trace randomCalls].
  destruct (updateRotation Math_random _) as [u w2]. reflexivity.
Qed.

(** ** Several frames in a row *)

Lemma exec_frames_S (Math_random : nat -> R) (n : nat) (w : World) :
  exec (frames Math_random (S n)) w =
  exec (frames Math_random n) (exec (animate Math_random) w).
Proof.
  cbn [frames]. unfold exec, bind.
  destruct (animate Math_random w) as [u w1]. reflexivity.
Qed.

Lemma pow_9985_range (n : nat) : 0 < 0.9985 ^ n <= 1.
Proof.
  induction n as [|n IH]; cbn [pow]; lra.
Qed.

(** While the distance stays at or above the tolerance, [n] frames keep the
    target and multiply the distance to it by [0.9985 ^ n]. *)
Lemma frames_approach (Math_random : nat -> R) (n : nat) :
  forall (w : World) (p : Group.t),
    pivot (this w) = Some p ->
    let current := Vector3.z (Group.rotation p) in
    let target := targetRotation (this w) in
    0.001 <= 0.9985 ^ n * Rabs (target - current) ->
    let w' := exec (frames Math_random n) w in
    targetRotation (this w') = target /\
    exists p' : Group.t,
      pivot (this w') = Some p' /\
      target - Vector3.z (Group.rotation p')
      = 0.9985 ^ n * (target - current).
Proof.
  induction n as [|n IH]; intros w p Hpivot current target Hfar w'.
  - split; [reflexivity |]. exists p. split; [exact Hpivot |].
    cbn [pow]. fold current. lra.
  - unfold w'. rewrite exec_frames_S, exec_animate. cbn zeta.
    set (w1 := mkWorld (this w) (trace w ++ [RequestAnimationFrame])
                 (randomCalls w)).
    assert (Hp1 : pivot (this w1) = Some p) by exact Hpivot.
    pose proof (updateRotation_target Math_random w1 p Hp1) as Htarget.
    pose proof (updateRotation_pivot Math_random w1 p Hp1) as Hpivot'.
    assert (Hnext : nextTarget Math_random w1 p = target).
    { unfold nextTarget. cbn [w1 this]. fold current target.
      destruct (Rlt_dec (Rabs (current - target)) 0.001) as [Hconv |];
        [| reflexivity].
      pose proof (pow_9985_range n) as Hpow.
      pose proof (Rabs_pos (target - current)) as Hge.
      rewrite Rabs_minus_sym in Hconv. cbn [pow] in Hfar. nra. }
    rewrite Hnext in Htarget, Hpivot'.
    set (w2 := exec (updateRotation Math_random) w1) in *.
    set (w3 := mkWorld (this w2) (trace w2 ++ [Composer_render])
                 (randomCalls w2)).
    set (p1 := Group.set_rotation p
                 (Vector3.setZ (Group.rotation p)
                    (Vector3.z (Group.rotation p)
                     + (target - Vector3.z (Group.rotation p)) * 0.0015)))
      in *.
    assert (Hstep : target - Vector3.z (Group.rotation p1)
                    = 0.9985 * (target - current)).
    { unfold p1. cbn [Group.set_rotation Group.rotation Vector3.setZ Vector3.z].
      fold current. lra. }
    destruct (IH w3 p1 Hpivot') as (Hkeep & p' & Hp' & Hdist).
    + cbn [w3 this]. rewrite Htarget, Hstep, Rabs_mult, (Rabs_right 0.9985)
        by lra.
      cbn [pow] in Hfar. lra.
    + cbn [w3 this] in Hkeep, Hdist. rewrite Htarget in Hkeep, Hdist.
      split; [exact Hkeep |].
      exists p'. split; [exact Hp' |].
      rewrite Hdist, Hstep. cbn [pow]. lra.
Qed.

(** ** The success callback of the mesh load *)

Section Framing.

Variable setFromObject : option Group.t -> Object3D.t -> Box3.t.
Variable Math_random : nat -> R.
Variable object : Object3D.t.
Variable w : World.

Let w' : World := exec (onObjLoad setFromObject Math_random object) w.
Let placed : Object3D.t := placedObject setFromObject (camera (this w)) object.
Let framed : Group.t := framedPivot setFromObject (camera (this w)) object.

(** Lines 141-199 are straight-line code. *)
Lemma onObjLoad_framed :
  onObjLoad setFromObject Math_random object w =
  (if negb (isAnimating (this w))
   then modifyThis (set_isAnimating true) ;; animate Math_random
   else ret tt) (framedWorld setFromObject object w).
Proof.
  unfold onObjLoad, framedWorld, bind, console_log, emit, getThis, modifyThis.
  cbn [this trace randomCalls fst snd].
  repeat rewrite <- app_assoc. reflexivity.
Qed.

(** The first run of [animate] only turns the pivot. *)
Lemma onObjLoad_result :
  model (this w') = Some placed /\
  (exists p : Group.t,
     pivot (this w') = Some p /\
     Group.position p = Group.position framed /\
     Group.children p = [placed]) /\
  scene (this w') = scene (this w) ++ [PivotNode] /\
  camera (this w') = camera (this w) /\
  isAnimating (this w') = true /\
  trace w' =
    trace (framedWorld setFromObject object w)
    ++ (if isAnimating (this w) then []
        else [RequestAnimationFrame; Composer_render]).
Proof.
  unfold w', exec. rewrite onObjLoad_framed.
  destruct (isAnimating (this w)) eqn:Hanim; cbn [negb].
  - unfold ret, framedWorld. cbn [snd this trace model pivot scene camera].
    rewrite Hanim, app_nil_r.
    repeat split; try reflexivity.
    exists framed. repeat split; reflexivity.
  - change (snd ((modifyThis (set_isAnimating true) ;; animate Math_random)
                   (framedWorld setFromObject object w)))
      with (exec (animate Math_random)
              (mkWorld (set_isAnimating true
                          (this (framedWorld setFromObject object w)))
                 (trace (framedWorld setFromObject object w))
                 (randomCalls w))).
    rewrite exec_animate. cbn zeta. cbn [this trace randomCalls].
    match goal with
    | |- context [exec (updateRotation Math_random) ?w1] => set (w1' := w1)
    end.
    assert (Hp : pivot (this w1') = Some framed) by reflexivity.
    destruct (updateRotation_frame Math_random w1' framed Hp)
      as (Hscene & Hmodel & Hcamera & Hanim' & Htrace).
    pose proof (updateRotation_pivot Math_random w1' framed Hp) as Hpivot.
    repeat split.
    + rewrite Hmodel. reflexivity.
    + eexists. split; [exact Hpivot |]. split; reflexivity.
    + rewrite Hscene. reflexivity.
    + rewrite Hcamera. reflexivity.
    + rewrite Hanim'. reflexivity.
    + rewrite Htrace. unfold w1'. cbn [trace].
      rewrite <- app_assoc. reflexivity.
Qed.

End Framing.

(** ** Running the point-cloud collaborator *)

Ltac minmax :=
  unfold Math_max, Rmin, Rmax;
  repeat match goal with
         | |- context [Rle_dec ?a ?b] => destruct (Rle_dec a b)
         | H : context [Rle_dec ?a ?b] |- _ => destruct (Rle_dec a b)
         end;
  try lra.

Ltac measure :=
  unfold PointCloud.setFromPoints, Box3.getSize, Box3.getCenter,
    PointCloud.expandByPoint;
  cbn [fold_left Box3.min Box3.max Vector3.x Vector3.y Vector3.z
       Object3D.scale Object3D.position Vector3.setScalar Vector3.zero].

Lemma viewportHeight_camera90 (d : R) :
  0 <= d -> viewportHeight (camera90 d) = 2 * d.
Proof.
  intros Hd. unfold viewportHeight, camera90, Vector3.length.
  cbn [PerspectiveCamera.fov PerspectiveCamera.position
       Vector3.x Vector3.y Vector3.z].
  replace (90 * PI / 180 / 2) with (PI / 4) by lra.
  replace (d * d + 0 * 0 + 0 * 0) with (d * d) by lra.
  rewrite tan_PI4, sqrt_square by exact Hd. lra.
Qed.

(** Without rotation a vertex is scaled and translated. *)
Lemma localToWorld_unrotated (o : Object3D.t) (v : Vector3.t) :
  Object3D.rotation o = Vector3.mk 0 0 0 ->
  PointCloud.localToWorld o v =
  Vector3.mk
    (Vector3.x (Object3D.scale o) * Vector3.x v + Vector3.x (Object3D.position o))
    (Vector3.y (Object3D.scale o) * Vector3.y v + Vector3.y (Object3D.position o))
    (Vector3.z (Object3D.scale o) * Vector3.z v + Vector3.z (Object3D.position o)).
Proof.
  intros Hrot. unfold PointCloud.localToWorld, PointCloud.applyEuler.
  rewrite Hrot. cbn [Vector3.x Vector3.y Vector3.z].
  rewrite cos_0, sin_0. f_equal; ring.
Qed.

(** Laid flat, a vertex (x, y, z) goes to (z, -x, -y). *)
Lemma localToWorld_flat (o : Object3D.t) (v : Vector3.t) :
  Object3D.rotation o = Vector3.mk (- PI / 2) (PI / 2) 0 ->
  PointCloud.localToWorld o v =
  Vector3.mk
    (Vector3.z (Object3D.scale o) * Vector3.z v + Vector3.x (Object3D.position o))
    (- (Vector3.x (Object3D.scale o) * Vector3.x v) + Vector3.y (Object3D.position o))
    (- (Vector3.y (Object3D.scale o) * Vector3.y v) + Vector3.z (Object3D.position o)).
Proof.
  intros Hrot. unfold PointCloud.localToWorld, PointCloud.applyEuler.
  rewrite Hrot. cbn [Vector3.x Vector3.y Vector3.z].
  rewrite cos_neg_PI2, sin_neg_PI2, cos_PI2, sin_PI2, cos_0, sin_0.
  f_equal; ring.
Qed.

(** The box of a segment from (x0, y0, z0) to (x1, y1, z1). *)
Lemma computeBoundingBox_two (p t s : Vector3.t) (x0 y0 z0 x1 y1 z1 : R) :
  x0 <= x1 -> y0 <= y1 -> z0 <= z1 ->
  PointCloud.computeBoundingBox
    (Object3D.mk p t s [Vector3.mk x0 y0 z0; Vector3.mk x1 y1 z1])
  = Box3.mk (Vector3.mk x0 y0 z0) (Vector3.mk x1 y1 z1).
Proof.
  intros Hx Hy Hz. unfold PointCloud.computeBoundingBox.
  cbn [Object3D.vertices]. measure. f_equal; f_equal; minmax.
Qed.

Ltac corners :=
  unfold PointCloud.applyMatrix4, PointCloud.corners;
  cbn [Box3.min Box3.max Vector3.x Vector3.y Vector3.z map].

(** Minima and maxima of numbers, innermost first. *)
Ltac plain t :=
  lazymatch t with
  | context [Rmin _ _] => fail
  | context [Rmax _ _] => fail
  | _ => idtac
  end.

Ltac innermost :=
  match goal with
  | |- context [Rmin ?a ?b] =>
      plain a; plain b;
      first [rewrite (Rmin_left a b) by lra | rewrite (Rmin_right a b) by lra]
  | |- context [Rmax ?a ?b] =>
      plain a; plain b;
      first [rewrite (Rmax_left a b) by lra | rewrite (Rmax_right a b) by lra]
  end.

Ltac extremes := repeat innermost; try lra.

Lemma cube_size :
  Box3.getSize (PointCloud.setFromObject None cube) = Vector3.mk 2 2 2.
Proof.
  unfold PointCloud.setFromObject, cube, delivered.
  cbn [Object3D.vertices].
  rewrite computeBoundingBox_two by lra. corners.
  rewrite !localToWorld_unrotated by reflexivity.
  measure. f_equal; extremes.
Qed.

Lemma slab_size :
  Box3.getSize (PointCloud.setFromObject None slab) = Vector3.mk 2 4 8.
Proof.
  unfold PointCloud.setFromObject, slab, delivered.
  cbn [Object3D.vertices].
  rewrite computeBoundingBox_two by lra. corners.
  rewrite !localToWorld_unrotated by reflexivity.
  measure. f_equal; extremes.
Qed.

(** The slab, scaled by 4 and laid flat, spans (0,-8,-16) to (32,0,0). *)
Lemma slab_flat_box :
  PointCloud.setFromObject None
    (Object3D.mk (Vector3.mk 0 0 0) (Vector3.mk (- PI / 2) (PI / 2) 0)
       (Vector3.setScalar 4) (Object3D.vertices slab))
  = Box3.mk (Vector3.mk 0 (-8) (-16)) (Vector3.mk 32 0 0).
Proof.
  unfold PointCloud.setFromObject, slab, delivered.
  cbn [Object3D.vertices].
  rewrite computeBoundingBox_two by lra. corners.
  rewrite !localToWorld_flat by reflexivity.
  measure. f_equal; f_equal; extremes.
Qed.

(** ** Scale and pivot offset *)

(** C1.  When the first measurement has size (sx, sy, sz) with a positive
    largest dimension and the viewport height is H, the stored model carries
    the scale [(H * 3.2) / max(sx, sy, sz)] on each of its three axes; for
    size (2, 2, 2) and H = 5 that is 8 on each axis. *)
Theorem onObjLoad_scale :
  forall (setFromObject : option Group.t -> Object3D.t -> Box3.t)
         (Math_random : nat -> R) (object : Object3D.t) (w : World)
         (sx sy sz H : R),
    Box3.getSize (setFromObject None object) = Vector3.mk sx sy sz ->
    viewportHeight (camera (this w)) = H ->
    Math_max sx sy sz > 0 ->
    exists m : Object3D.t,
      model (this (exec (onObjLoad setFromObject Math_random object) w))
      = Some m /\
      Object3D.scale m =
        Vector3.mk (H * 3.2 / Math_max sx sy sz)
                   (H * 3.2 / Math_max sx sy sz)
                   (H * 3.2 / Math_max sx sy sz) /\
      (sx = 2 -> sy = 2 -> sz = 2 -> H = 5 ->
       Object3D.scale m = Vector3.mk 8 8 8).
Proof.
  intros setFromObject Math_random object w sx sy sz H Hsize HH Hpos.
  destruct (onObjLoad_result setFromObject Math_random object w)
    as (Hmodel & _).
  eexists. split; [exact Hmodel |].
  unfold placedObject, frameScale. cbn [Object3D.scale].
  rewrite Hsize, HH. cbn [Vector3.x Vector3.y Vector3.z].
  split; [reflexivity |].
  intros -> -> -> ->. unfold Vector3.setScalar.
  replace (Math_max 2 2 2) with 2 by minmax.
  f_equal; lra.
Qed.

Lemma onObjLoad_scale_witness :
  exists m : Object3D.t,
    model (this (exec (onObjLoad PointCloud.setFromObject (fun _ => 0.25) cube)
                   (freshWorld (camera90 2.5))))
    = Some m /\
    Object3D.scale m =
      Vector3.mk (5 * 3.2 / Math_max 2 2 2) (5 * 3.2 / Math_max 2 2 2)
                 (5 * 3.2 / Math_max 2 2 2) /\
    (2 = 2 -> 2 = 2 -> 2 = 2 -> 5 = 5 -> Object3D.scale m = Vector3.mk 8 8 8).
Proof.
  apply (onObjLoad_scale PointCloud.setFromObject (fun _ => 0.25) cube
           (freshWorld (camera90 2.5)) 2 2 2 5).
  - exact cube_size.
  - cbn [freshWorld this camera]. rewrite viewportHeight_camera90; lra.
  - minmax.
Defined.

(** C2.  Let H be the viewport height and let the mesh, once scaled and
    laid flat, measure center (cx, cy, cz) and size (sx, sy, sz).  Then the
    pivot is created at [(-cx, sy/2 - H*0.4, -cz)], and the scaled and
    rotated mesh is the stored model; with H = 10 the position is
    [(-cx, sy/2 - 4.0, -cz)]. *)
Theorem onObjLoad_pivot_position :
  forall (setFromObject : option Group.t -> Object3D.t -> Box3.t)
         (Math_random : nat -> R) (object : Object3D.t) (w : World)
         (s cx cy cz sx sy sz H : R),
    viewportHeight (camera (this w)) = H ->
    s = frameScale setFromObject (camera (this w)) object ->
    let turned :=
      Object3D.mk (Vector3.mk 0 0 0) (Vector3.mk (- PI / 2) (PI / 2) 0)
        (Vector3.setScalar s) (Object3D.vertices object) in
    Box3.getCenter (setFromObject None turned) = Vector3.mk cx cy cz ->
    Box3.getSize (setFromObject None turned) = Vector3.mk sx sy sz ->
    let w' := exec (onObjLoad setFromObject Math_random object) w in
    model (this w') = Some turned /\
    exists p : Group.t,
      pivot (this w') = Some p /\
      Group.position p = Vector3.mk (- cx) (sy / 2 - H * 0.4) (- cz) /\
      (H = 10 -> Group.position p = Vector3.mk (- cx) (sy / 2 - 4.0) (- cz)).
Proof.
  intros setFromObject Math_random object w s cx cy cz sx sy sz H
    HH Hs turned Hcenter Hsize w'.
  destruct (onObjLoad_result setFromObject Math_random object w)
    as (Hmodel & (p & Hpivot & Hposition & _) & _).
  assert (Hturned : placedObject setFromObject (camera (this w)) object
                    = turned).
  { unfold placedObject, turned. rewrite Hs. reflexivity. }
  rewrite Hturned in Hmodel.
  split; [exact Hmodel |].
  exists p. split; [exact Hpivot |].
  unfold framedPivot in Hposition. rewrite Hturned in Hposition.
  cbn [Group.position] in Hposition.
  rewrite Hcenter, Hsize, HH in Hposition.
  cbn [Vector3.x Vector3.y Vector3.z] in Hposition.
  split; [exact Hposition |].
  intros ->. rewrite Hposition. f_equal; lra.
Qed.

Lemma slab_frameScale :
  4 = frameScale PointCloud.setFromObject (camera90 5) slab.
Proof.
  unfold frameScale. rewrite slab_size, viewportHeight_camera90 by lra.
  cbn [Vector3.x Vector3.y Vector3.z].
  replace (Math_max 2 4 8) with 8 by minmax. lra.
Qed.

Lemma onObjLoad_pivot_position_witness :
  let turned :=
    Object3D.mk (Vector3.mk 0 0 0) (Vector3.mk (- PI / 2) (PI / 2) 0)
      (Vector3.setScalar 4) (Object3D.vertices slab) in
  let w' :=
    exec (onObjLoad PointCloud.setFromObject (fun _ => 0.25) slab)
      (freshWorld (camera90 5)) in
  model (this w') = Some turned /\
  exists p : Group.t,
    pivot (this w') = Some p /\
    Group.position p = Vector3.mk (- 16) (8 / 2 - 10 * 0.4) (- -8) /\
    (10 = 10 -> Group.position p = Vector3.mk (- 16) (8 / 2 - 4.0) (- -8)).
Proof.
  apply (onObjLoad_pivot_position PointCloud.setFromObject (fun _ => 0.25)
           slab (freshWorld (camera90 5)) 4 16 (-4) (-8) 32 8 16 10).
  - cbn [freshWorld this camera]. rewrite viewportHeight_camera90; lra.
  - exact slab_frameScale.
  - rewrite slab_flat_box. unfold Box3.getCenter.
    cbn [Box3.min Box3.max Vector3.x Vector3.y Vector3.z]. f_equal; lra.
  - rewrite slab_flat_box. unfold Box3.getSize.
    cbn [Box3.min Box3.max Vector3.x Vector3.y Vector3.z]. f_equal; lra.
Defined.

(** ** Degenerate bounds *)

Lemma dot_size :
  Box3.getSize (PointCloud.setFromObject None dot) = Vector3.mk 0 0 0.
Proof.
  unfold PointCloud.setFromObject, dot, delivered.
  cbn [Object3D.vertices].
  change (PointCloud.computeBoundingBox _)
    with (Box3.mk (Vector3.mk 0 0 0) (Vector3.mk 0 0 0)).
  corners.
  rewrite !localToWorld_unrotated by reflexivity.
  measure. f_equal; extremes.
Qed.

(** C6, counterexample.  The single-vertex mesh has [min = max]; the code
    nevertheless creates the pivot. *)
Lemma dot_gets_a_pivot :
  ~ spec_degenerate_aborts PointCloud.setFromObject (fun _ => 0.25) dot
      (freshWorld camera18).
Proof.
  unfold spec_degenerate_aborts. rewrite dot_size.
  cbn [Vector3.x Vector3.y Vector3.z]. intros Habort.
  destruct (onObjLoad_result PointCloud.setFromObject (fun _ => 0.25) dot
              (freshWorld camera18)) as (_ & (p & Hpivot & _) & _).
  rewrite Habort in Hpivot.
  - discriminate Hpivot.
  - minmax.
  - reflexivity.
Qed.

(** C6, as amended.  A mesh whose largest measured dimension is not
    positive is framed like any other: the callback reports no error, the
    pivot is created with the mesh as its only child and added to the scene,
    the model is stored and the animation is running afterwards. *)
Theorem onObjLoad_degenerate_still_framed :
  forall (setFromObject : option Group.t -> Object3D.t -> Box3.t)
         (Math_random : nat -> R) (object : Object3D.t) (w : World),
    let size := Box3.getSize (setFromObject None object) in
    Math_max (Vector3.x size) (Vector3.y size) (Vector3.z size) <= 0 ->
    let w' := exec (onObjLoad setFromObject Math_random object) w in
    (exists (p : Group.t) (m : Object3D.t),
       pivot (this w') = Some p /\
       model (this w') = Some m /\
       Group.children p = [m]) /\
    In PivotNode (scene (this w')) /\
    isAnimating (this w') = true /\
    (forall text args,
       In (ConsoleError text args) (trace w') ->
       In (ConsoleError text args) (trace w)).
Proof.
  intros setFromObject Math_random object w size _ w'.
  destruct (onObjLoad_result setFromObject Math_random object w)
    as (Hmodel & (p & Hpivot & _ & Hchildren) & Hscene & _ & Hanim & Htrace).
  fold w' in Hmodel, Hpivot, Hscene, Hanim, Htrace.
  repeat split.
  - exists p. eexists. repeat split; eassumption.
  - rewrite Hscene. apply in_or_app. right. left. reflexivity.
  - exact Hanim.
  - intros text args Hin. rewrite Htrace in Hin.
    unfold framedWorld in Hin. cbn [trace] in Hin.
    apply in_app_or in Hin. destruct Hin as [Hin | Hin].
    + apply in_app_or in Hin. destruct Hin as [Hin | Hin]; [exact Hin |].
      cbn in Hin. intuition discriminate.
    + destruct (isAnimating (this w)); cbn in Hin; intuition discriminate.
Qed.

Lemma onObjLoad_degenerate_still_framed_witness :
  let w' :=
    exec (onObjLoad PointCloud.setFromObject (fun _ => 0.25) dot)
      (freshWorld camera18) in
  (exists (p : Group.t) (m : Object3D.t),
     pivot (this w') = Some p /\
     model (this w') = Some m /\
     Group.children p = [m]) /\
  In PivotNode (scene (this w')) /\
  isAnimating (this w') = true /\
  (forall text args,
     In (ConsoleError text args) (trace w') ->
     In (ConsoleError text args) []).
Proof.
  apply (onObjLoad_degenerate_still_framed PointCloud.setFromObject
           (fun _ => 0.25) dot (freshWorld camera18)).
  rewrite dot_size. cbn [Vector3.x Vector3.y Vector3.z]. minmax.
Defined.

(** ** Viewport height *)

Lemma length_nonneg (v : Vector3.t) : 0 <= Vector3.length v.
Proof. unfold Vector3.length. apply sqrt_pos. Qed.

Lemma length_camera18 :
  Vector3.length (PerspectiveCamera.position camera18) = 2.
Proof.
  unfold Vector3.length, camera18.
  cbn [PerspectiveCamera.position Vector3.x Vector3.y Vector3.z].
  replace (2 * 2 + 0 * 0 + 0 * 0) with (2 * 2) by lra.
  apply sqrt_square. lra.
Qed.

(** C8.  For a camera at a positive distance whose vertical field of view,
    in radians, lies strictly between 0 and pi, the viewport height is
    [2 * tan(fov/2) * distance] and is positive; between two such cameras it
    grows strictly with the field of view at equal distance, strictly with
    the distance at equal field of view, and weakly when both grow.  (In
    this model every number is a real number, hence finite.) *)
Theorem viewportHeight_positive_monotone :
  forall c1 c2 : PerspectiveCamera.t,
    let fov1 := PerspectiveCamera.fov c1 * PI / 180 in
    let fov2 := PerspectiveCamera.fov c2 * PI / 180 in
    let d1 := Vector3.length (PerspectiveCamera.position c1) in
    let d2 := Vector3.length (PerspectiveCamera.position c2) in
    0 < d1 -> 0 < fov1 < PI ->
    0 < d2 -> 0 < fov2 < PI ->
    viewportHeight c1 = 2 * tan (fov1 / 2) * d1 /\
    0 < viewportHeight c1 /\
    (fov1 < fov2 -> d1 = d2 -> viewportHeight c1 < viewportHeight c2) /\
    (fov1 = fov2 -> d1 < d2 -> viewportHeight c1 < viewportHeight c2) /\
    (fov1 <= fov2 -> d1 <= d2 -> viewportHeight c1 <= viewportHeight c2).
Proof.
  intros c1 c2 fov1 fov2 d1 d2 Hd1 [Hf1 Hf1'] Hd2 [Hf2 Hf2'].
  assert (Ht1 : 0 < tan (fov1 / 2)) by (apply tan_gt_0; lra).
  assert (Ht2 : 0 < tan (fov2 / 2)) by (apply tan_gt_0; lra).
  assert (Hinc : fov1 < fov2 -> tan (fov1 / 2) < tan (fov2 / 2)).
  { intros Hlt. apply tan_increasing; lra. }
  unfold viewportHeight. fold fov1 fov2 d1 d2.
  split; [reflexivity |].
  split; [nra |].
  split; [| split].
  - intros Hlt Heq. specialize (Hinc Hlt). rewrite <- Heq. nra.
  - intros Heq Hlt. rewrite <- Heq. nra.
  - intros Hle Hle'.
    assert (Htan : tan (fov1 / 2) <= tan (fov2 / 2)).
    { destruct Hle as [Hlt | Heq]; [left; exact (Hinc Hlt) |].
      rewrite Heq. right. reflexivity. }
    nra.
Qed.

Lemma length_camera90 (d : R) :
  0 <= d -> Vector3.length (PerspectiveCamera.position (camera90 d)) = d.
Proof.
  intros Hd. unfold Vector3.length, camera90.
  cbn [PerspectiveCamera.position Vector3.x Vector3.y Vector3.z].
  replace (d * d + 0 * 0 + 0 * 0) with (d * d) by lra.
  apply sqrt_square. exact Hd.
Qed.

Lemma viewportHeight_positive_monotone_witness :
  viewportHeight camera18 = 2 * tan (18 * PI / 180 / 2) * 2 /\
  0 < viewportHeight camera18 /\
  viewportHeight camera18 < viewportHeight (camera90 2) /\
  viewportHeight (camera90 2) < viewportHeight (camera90 5).
Proof.
  pose proof PI_RGT_0 as HPI.
  assert (H18 : 0 < 18 * PI / 180 < PI) by (split; lra).
  assert (H90 : 0 < 90 * PI / 180 < PI) by (split; lra).
  assert (Hd18 : 0 < Vector3.length (PerspectiveCamera.position camera18))
    by (rewrite length_camera18; lra).
  assert (Hd2 : 0 < Vector3.length (PerspectiveCamera.position (camera90 2)))
    by (rewrite length_camera90; lra).
  assert (Hd5 : 0 < Vector3.length (PerspectiveCamera.position (camera90 5)))
    by (rewrite length_camera90; lra).
  destruct (viewportHeight_positive_monotone camera18 (camera90 2)
              Hd18 H18 Hd2 H90) as (Heq & Hpos & Hfov & _).
  destruct (viewportHeight_positive_monotone (camera90 2) (camera90 5)
              Hd2 H90 Hd5 H90) as (_ & _ & _ & Hdist & _).
  rewrite length_camera18 in Heq.
  repeat split.
  - exact Heq.
  - exact Hpos.
  - apply Hfov.
    + cbn [camera18 camera90 PerspectiveCamera.fov]. lra.
    + rewrite length_camera18, length_camera90; lra.
  - apply Hdist.
    + reflexivity.
    + rewrite !length_camera90; lra.
Defined.

(** ** Failed loads *)

Section FailedLoad.

Variable Materials : Type.
Variable setFromObject : option Group.t -> Object3D.t -> Box3.t.
Variable Math_random : nat -> R.
Variable net : Loaders Materials.
Variable w : World.

Let percent (xhr : ProgressEvent) : Event :=
  ConsoleLog "% loaded" [ArgNumber (loaded xhr / total xhr * 100)].

(** What is emitted when the material load is rejected. *)
Lemma loadModel_mtl_error (error : string) :
  settled (mtl net "./static/sceneone/obj.mtl") = OnError error ->
  exec (loadModel setFromObject Math_random net) w =
  mkWorld (this w)
    (trace w ++
     [ConsoleLog "Starting model load..." [];
      MTLLoader_load "./static/sceneone/obj.mtl"]
     ++ map percent (progress (mtl net "./static/sceneone/obj.mtl"))
     ++ [ConsoleError "Error loading MTL:" [ArgError error]])
    (randomCalls w).
Proof.
  intros Hfail. unfold loadModel, exec, bind, console_log, emit at 1 2.
  cbn [String.append this trace randomCalls].
  rewrite forEach_onProgress, Hfail.
  unfold console_error, emit. cbn [snd this trace randomCalls].
  f_equal. repeat rewrite <- app_assoc. reflexivity.
Qed.

(** What is emitted when the material arrives and the mesh load is
    rejected. *)
Lemma loadModel_obj_error (materials : Materials) (error : string) :
  settled (mtl net "./static/sceneone/obj.mtl") = OnLoad materials ->
  settled (obj net "./static/sceneone/obj.obj" materials) = OnError error ->
  exec (loadModel setFromObject Math_random net) w =
  mkWorld (this w)
    (trace w ++
     [ConsoleLog "Starting model load..." [];
      MTLLoader_load "./static/sceneone/obj.mtl"]
     ++ map percent (progress (mtl net "./static/sceneone/obj.mtl"))
     ++ [ConsoleLog "MTL loaded successfully" [];
         Materials_preload;
         OBJLoader_load "./static/sceneone/obj.obj"]
     ++ map percent
          (progress (obj net "./static/sceneone/obj.obj" materials))
     ++ [ConsoleError "Error loading OBJ:" [ArgError error]])
    (randomCalls w).
Proof.
  intros Hmtl Hobj. unfold loadModel, exec, bind, console_log, emit at 1 2.
  cbn [String.append this trace randomCalls].
  rewrite forEach_onProgress, Hmtl.
  unfold emit at 1 2 3. cbn [this trace randomCalls].
  rewrite forEach_onProgress, Hobj.
  unfold console_error, emit. cbn [snd this trace randomCalls].
  f_equal. repeat rewrite <- app_assoc. reflexivity.
Qed.

End FailedLoad.

Lemma percent_is_log (l : list ProgressEvent) (e : Event) :
  In e (map (fun xhr =>
               ConsoleLog "% loaded" [ArgNumber (loaded xhr / total xhr * 100)])
          l) ->
  exists text args, e = ConsoleLog text args.
Proof.
  intros Hin. apply in_map_iff in Hin. destruct Hin as (xhr & <- & _).
  eexists. eexists. reflexivity.
Qed.

(** C9.  When the material load is rejected, the class does nothing but
    log: the events it adds contain the error report and neither a mesh load
    nor an animation frame request, and no field of the renderer changes.
    When the material arrives and the mesh load is rejected, the added
    events contain the error report and no animation frame request, and
    again no field changes.  In both cases a viewer coming out of its
    constructor has no pivot, no model, and is not animating. *)
Theorem loadModel_failure :
  forall (Materials : Type)
         (setFromObject : option Group.t -> Object3D.t -> Box3.t)
         (Math_random : nat -> R) (net : Loaders Materials),
    (forall (w : World) (error : string),
       settled (mtl net "./static/sceneone/obj.mtl") = OnError error ->
       let w' := exec (loadModel setFromObject Math_random net) w in
       this w' = this w /\
       exists added : list Event,
         trace w' = trace w ++ added /\
         In (ConsoleError "Error loading MTL:" [ArgError error]) added /\
         (forall url, ~ In (OBJLoader_load url) added) /\
         ~ In RequestAnimationFrame added) /\
    (forall (w : World) (materials : Materials) (error : string),
       settled (mtl net "./static/sceneone/obj.mtl") = OnLoad materials ->
       settled (obj net "./static/sceneone/obj.obj" materials)
       = OnError error ->
       let w' := exec (loadModel setFromObject Math_random net) w in
       this w' = this w /\
       exists added : list Event,
         trace w' = trace w ++ added /\
         In (ConsoleError "Error loading OBJ:" [ArgError error]) added /\
         ~ In RequestAnimationFrame added) /\
    (forall (innerWidth height : R),
       (exists error,
          settled (mtl net "./static/sceneone/obj.mtl") = OnError error) \/
       (exists materials error,
          settled (mtl net "./static/sceneone/obj.mtl") = OnLoad materials /\
          settled (obj net "./static/sceneone/obj.obj" materials)
          = OnError error) ->
       let viewer :=
         constructor setFromObject Math_random innerWidth height net in
       pivot (this viewer) = None /\
       model (this viewer) = None /\
       isAnimating (this viewer) = false /\
       ~ In PivotNode (scene (this viewer)) /\
       ~ In RequestAnimationFrame (trace viewer)).
Proof.
  intros Materials setFromObject Math_random net.
  assert (Hmtl : forall (w : World) (error : string),
    settled (mtl net "./static/sceneone/obj.mtl") = OnError error ->
    let w' := exec (loadModel setFromObject Math_random net) w in
    this w' = this w /\
    exists added : list Event,
      trace w' = trace w ++ added /\
      In (ConsoleError "Error loading MTL:" [ArgError error]) added /\
      (forall url, ~ In (OBJLoader_load url) added) /\
      ~ In RequestAnimationFrame added).
  { intros w error Hfail w'. unfold w'.
    rewrite (loadModel_mtl_error _ _ _ _ _ _ Hfail). cbn [this trace].
    split; [reflexivity |].
    eexists. split; [reflexivity |].
    split; [| split].
    - apply in_or_app. right. apply in_or_app. right. left. reflexivity.
    - intros url Hin.
      apply in_app_or in Hin. destruct Hin as [Hin | Hin].
      + cbn in Hin. intuition discriminate.
      + apply in_app_or in Hin. destruct Hin as [Hin | Hin].
        * apply percent_is_log in Hin. destruct Hin as (t & a & Heq).
          discriminate Heq.
        * cbn in Hin. intuition discriminate.
    - intros Hin.
      apply in_app_or in Hin. destruct Hin as [Hin | Hin].
      + cbn in Hin. intuition discriminate.
      + apply in_app_or in Hin. destruct Hin as [Hin | Hin].
        * apply percent_is_log in Hin. destruct Hin as (t & a & Heq).
          discriminate Heq.
        * cbn in Hin. intuition discriminate. }
  assert (Hobj : forall (w : World) (materials : Materials) (error : string),
    settled (mtl net "./static/sceneone/obj.mtl") = OnLoad materials ->
    settled (obj net "./static/sceneone/obj.obj" materials) = OnError error ->
    let w' := exec (loadModel setFromObject Math_random net) w in
    this w' = this w /\
    exists added : list Event,
      trace w' = trace w ++ added /\
      In (ConsoleError "Error loading OBJ:" [ArgError error]) added /\
      ~ In RequestAnimationFrame added).
  { intros w materials error Hok Hfail w'. unfold w'.
    rewrite (loadModel_obj_error _ _ _ _ _ _ _ Hok Hfail). cbn [this trace].
    split; [reflexivity |].
    eexists. split; [reflexivity |].
    split.
    - apply in_or_app. right. apply in_or_app. right.
      apply in_or_app. right. apply in_or_app. right. left. reflexivity.
    - intros Hin.
      repeat (apply in_app_or in Hin; destruct Hin as [Hin | Hin]);
        try (cbn in Hin; intuition discriminate);
        apply percent_is_log in Hin; destruct Hin as (t & a & Heq);
        discriminate Heq. }
  split; [exact Hmtl |]. split; [exact Hobj |].
  intros innerWidth height Hfail viewer.
  assert (Hkept : this viewer = this (constructed innerWidth height) /\
                  ~ In RequestAnimationFrame (trace viewer)).
  { unfold viewer, constructor.
    destruct Hfail as [(error & Hfail) | (materials & error & Hok & Hfail)].
    - destruct (Hmtl (constructed innerWidth height) error Hfail)
        as (Hthis & added & Htrace & _ & _ & Hframe).
      split; [exact Hthis |]. rewrite Htrace. exact Hframe.
    - destruct (Hobj (constructed innerWidth height) materials error Hok Hfail)
        as (Hthis & added & Htrace & _ & Hframe).
      split; [exact Hthis |]. rewrite Htrace. exact Hframe. }
  destruct Hkept as (Hthis & Hframe). rewrite Hthis.
  repeat split; try reflexivity; try exact Hframe.
  cbn. intuition discriminate.
Qed.

Lemma loadModel_failure_witness :
  (let viewer :=
     constructor PointCloud.setFromObject (fun _ => 0.25) 1920 1080 mtlFails in
   pivot (this viewer) = None /\
   model (this viewer) = None /\
   isAnimating (this viewer) = false /\
   ~ In PivotNode (scene (this viewer)) /\
   ~ In RequestAnimationFrame (trace viewer)) /\
  (let w' :=
     exec (loadModel PointCloud.setFromObject (fun _ => 0.25) mtlFails)
       (constructed 1920 1080) in
   this w' = this (constructed 1920 1080) /\
   exists added : list Event,
     trace w' = trace (constructed 1920 1080) ++ added /\
     In (ConsoleError "Error loading MTL:" [ArgError "404"]) added /\
     (forall url, ~ In (OBJLoader_load url) added) /\
     ~ In RequestAnimationFrame added) /\
  (let w' :=
     exec (loadModel PointCloud.setFromObject (fun _ => 0.25) objFails)
       (constructed 1920 1080) in
   this w' = this (constructed 1920 1080) /\
   exists added : list Event,
     trace w' = trace (constructed 1920 1080) ++ added /\
     In (ConsoleError "Error loading OBJ:" [ArgError "404"]) added /\
     ~ In RequestAnimationFrame added).
Proof.
  pose proof (loadModel_failure unit PointCloud.setFromObject (fun _ => 0.25)
                mtlFails) as (Hmtl & _ & Hviewer).
  pose proof (loadModel_failure unit PointCloud.setFromObject (fun _ => 0.25)
                objFails) as (_ & Hobj & _).
  split; [| split].
  - apply Hviewer. left. exists "404". reflexivity.
  - apply Hmtl. reflexivity.
  - apply (Hobj (constructed 1920 1080) tt "404"); reflexivity.
Defined.

(** * Further properties of the class *)

(** ** One tick and one frame, in full *)

Ltac split_Rabs :=
  unfold Rabs in *;
  repeat match goal with
         | |- context [Rcase_abs ?x] => destruct (Rcase_abs x)
         | H : context [Rcase_abs ?x] |- _ => destruct (Rcase_abs x)
         end;
  try lra.

Lemma exec_updateRotation_exact (Math_random : nat -> R) (w : World)
  (p : Group.t) :
  pivot (this w) = Some p ->
  exec (updateRotation Math_random) w =
  mkWorld
    (mkRenderer (scene (this w)) (model (this w))
       (Some (Group.set_rotation p
                (Vector3.setZ (Group.rotation p)
                   (Vector3.z (Group.rotation p)
                    + (nextTarget Math_random w p
                       - Vector3.z (Group.rotation p)) * 0.0015))))
       (rotationSpeed (this w)) (nextTarget Math_random w p)
       (screenHeight (this w)) (camera (this w)) (isAnimating (this w)))
    (trace w)
    (if Rlt_dec (Rabs (Vector3.z (Group.rotation p) - targetRotation (this w)))
                0.001
     then S (S (randomCalls w)) else randomCalls w).
Proof.
  intros Hpivot.
  unfold exec, updateRotation, bind, getThis, nextTarget.
  rewrite Hpivot.
  destruct (Rlt_dec _ _); unfold random, modifyThis, ret; cbn;
    unfold set_pivot_rotation_z; cbn; rewrite Hpivot; reflexivity.
Qed.

Lemma exec_animate_exact (Math_random : nat -> R) (w : World) (p : Group.t) :
  pivot (this w) = Some p ->
  exec (animate Math_random) w =
  mkWorld
    (mkRenderer (scene (this w)) (model (this w))
       (Some (Group.set_rotation p
                (Vector3.setZ (Group.rotation p)
                   (Vector3.z (Group.rotation p)
                    + (nextTarget Math_random w p
                       - Vector3.z (Group.rotation p)) * 0.0015))))
       (rotationSpeed (this w)) (nextTarget Math_random w p)
       (screenHeight (this w)) (camera (this w)) (isAnimating (this w)))
    (trace w ++ [RequestAnimationFrame; Composer_render])
    (if Rlt_dec (Rabs (Vector3.z (Group.rotation p) - targetRotation (this w)))
                0.001
     then S (S (randomCalls w)) else randomCalls w).
Proof.
  intros Hpivot. rewrite exec_animate. cbn zeta.
  rewrite (exec_updateRotation_exact Math_random _ p) by exact Hpivot.
  cbn [this trace randomCalls]. rewrite <- app_assoc. reflexivity.
Qed.

(** The offset drawn by lines 115-117, with its sign. *)
Lemma nextTarget_converged (Math_random : nat -> R) (w : World) (p : Group.t) :
  (forall n, 0 <= Math_random n < 1) ->
  Rabs (Vector3.z (Group.rotation p) - targetRotation (this w)) < 0.001 ->
  exists delta : R,
    3 * PI / 180 <= delta <= 16 * PI / 180 /\
    (nextTarget Math_random w p = Vector3.z (Group.rotation p) + delta \/
     nextTarget Math_random w p = Vector3.z (Group.rotation p) - delta).
Proof.
  intros Hrange Hconv. unfold nextTarget.
  destruct (Rlt_dec _ _) as [_ | Hn]; [| contradiction].
  exists ((Math_random (randomCalls w) * 13 + 3) * PI / 180).
  split; [apply newAngle_range, Hrange |].
  destruct (Rgt_dec _ _); [left | right]; lra.
Qed.

Lemma nextTarget_approaching (Math_random : nat -> R) (w : World)
  (p : Group.t) :
  ~ Rabs (Vector3.z (Group.rotation p) - targetRotation (this w)) < 0.001 ->
  nextTarget Math_random w p = targetRotation (this w).
Proof.
  intros Hfar. unfold nextTarget.
  destruct (Rlt_dec _ _) as [Hc | _]; [contradiction | reflexivity].
Qed.

(** ** What a tick draws and what it leaves alone *)

(** X1.  A tick with a pivot calls [Math.random] exactly twice when it
    picks a new target and not at all otherwise; it calls no collaborator. *)
Theorem updateRotation_draws :
  forall (Math_random : nat -> R) (w : World) (p : Group.t),
    pivot (this w) = Some p ->
    let current := Vector3.z (Group.rotation p) in
    let target := targetRotation (this w) in
    let w' := exec (updateRotation Math_random) w in
    trace w' = trace w /\
    (Rabs (current - target) < 0.001 ->
     randomCalls w' = S (S (randomCalls w))) /\
    (~ Rabs (current - target) < 0.001 ->
     randomCalls w' = randomCalls w).
Proof.
  intros Math_random w p Hpivot current target w'.
  unfold w'. rewrite (exec_updateRotation_exact Math_random w p Hpivot).
  cbn [trace randomCalls]. fold current target.
  split; [reflexivity |].
  destruct (Rlt_dec (Rabs (current - target)) 0.001) as [Hc | Hf];
    split; intros H; try reflexivity; contradiction.
Qed.

Lemma Rabs_rest_example : Rabs (0 - 0) < 0.001.
Proof. split_Rabs. Defined.

Lemma Rabs_not_converged_example : ~ Rabs (0 - 0.1) < 0.001.
Proof. intros H. split_Rabs. Defined.

Lemma updateRotation_draws_witness :
  randomCalls (exec (updateRotation (fun _ => 0.75)) restingWorld) = 2%nat /\
  randomCalls (exec (updateRotation (fun _ => 0.75)) approachingWorld) = 0%nat.
Proof.
  split.
  - apply (updateRotation_draws (fun _ => 0.75) restingWorld Group.new).
    + reflexivity.
    + exact Rabs_rest_example.
  - apply (updateRotation_draws (fun _ => 0.75) approachingWorld Group.new).
    + reflexivity.
    + exact Rabs_not_converged_example.
Defined.

(** X2.  With [Math.random] in [0,1), every tick turns the pivot: the
    angle changes, it changes towards the target the tick works with, and
    it stops short of that target. *)
Theorem updateRotation_always_moves :
  forall (Math_random : nat -> R) (w : World) (p : Group.t),
    (forall n, 0 <= Math_random n < 1) ->
    pivot (this w) = Some p ->
    let current := Vector3.z (Group.rotation p) in
    let w' := exec (updateRotation Math_random) w in
    let target' := targetRotation (this w') in
    exists p' : Group.t,
      pivot (this w') = Some p' /\
      let current' := Vector3.z (Group.rotation p') in
      current' <> current /\
      (current < target' -> current < current' < target') /\
      (target' < current -> target' < current' < current) /\
      target' <> current.
Proof.
  intros Math_random w p Hrange Hpivot current w' target'.
  unfold target', w'.
  rewrite (exec_updateRotation_exact Math_random w p Hpivot).
  cbn [this pivot targetRotation]. eexists. split; [reflexivity |].
  cbn [Group.set_rotation Group.rotation Vector3.setZ Vector3.z].
  fold current.
  assert (Hneq : nextTarget Math_random w p <> current).
  { destruct (Rlt_dec (Rabs (current - targetRotation (this w))) 0.001)
      as [Hc | Hf].
    - destruct (nextTarget_converged Math_random w p Hrange Hc)
        as (delta & Hdelta & Hnext).
      pose proof PI_gt_3. fold current in Hnext.
      destruct Hnext as [-> | ->]; lra.
    - rewrite (nextTarget_approaching Math_random w p Hf).
      intros Heq. apply Hf. fold current. rewrite Heq. split_Rabs. }
  set (t := nextTarget Math_random w p) in *.
  repeat split; lra.
Qed.

Lemma updateRotation_always_moves_witness :
  let w' := exec (updateRotation (fun _ => 0.75)) restingWorld in
  let target' := targetRotation (this w') in
  exists p' : Group.t,
    pivot (this w') = Some p' /\
    let current' := Vector3.z (Group.rotation p') in
    current' <> 0 /\
    (0 < target' -> 0 < current' < target') /\
    (target' < 0 -> target' < current' < 0) /\
    target' <> 0.
Proof.
  apply (updateRotation_always_moves (fun _ => 0.75) restingWorld Group.new).
  - intros n. lra.
  - reflexivity.
Defined.

(** ** Many frames *)

(** X3.  Frames only ever write [rotation.z] of the pivot and
    [targetRotation]: after any number of frames the pivot is where it was,
    with the same children, scale and x and y rotation, every other field of
    the renderer is unchanged, and each frame has requested the next one and
    rendered once, in that order. *)
Theorem frames_footprint :
  forall (Math_random : nat -> R) (n : nat) (w : World) (p : Group.t),
    pivot (this w) = Some p ->
    let w' := exec (frames Math_random n) w in
    (exists p' : Group.t,
       pivot (this w') = Some p' /\
       Group.position p' = Group.position p /\
       Group.scale p' = Group.scale p /\
       Group.children p' = Group.children p /\
       Vector3.x (Group.rotation p') = Vector3.x (Group.rotation p) /\
       Vector3.y (Group.rotation p') = Vector3.y (Group.rotation p)) /\
    scene (this w') = scene (this w) /\
    model (this w') = model (this w) /\
    camera (this w') = camera (this w) /\
    screenHeight (this w') = screenHeight (this w) /\
    rotationSpeed (this w') = rotationSpeed (this w) /\
    isAnimating (this w') = isAnimating (this w) /\
    trace w' =
      trace w ++ List.concat (repeat [RequestAnimationFrame; Composer_render] n).
Proof.
  intros Math_random n. induction n as [|n IH]; intros w p Hpivot w'.
  - cbn [repeat List.concat]. rewrite app_nil_r.
    split; [exists p; repeat split; exact Hpivot |].
    repeat split.
  - unfold w'. rewrite exec_frames_S.
    rewrite (exec_animate_exact Math_random w p Hpivot).
    match goal with
    | |- context [exec (frames Math_random n) ?w1] => set (w1' := w1)
    end.
    match type of w1' with
    | _ => pose proof (IH w1' _ eq_refl) as IH'
    end.
    cbn zeta in IH'.
    destruct IH' as ((p' & Hp' & Hpos & Hsc & Hch & Hx & Hy)
                     & Hscene & Hmodel & Hcam & Hsh & Hrs & Hanim & Htrace).
    split.
    + exists p'. repeat split; assumption.
    + repeat split; try assumption.
      rewrite Htrace. cbn [w1' trace repeat List.concat].
      rewrite <- !app_assoc. reflexivity.
Qed.

Lemma frames_footprint_witness :
  let w' := exec (frames (fun _ => 0.75) 3) animatingWorld in
  (exists p' : Group.t,
     pivot (this w') = Some p' /\
     Group.position p' = Vector3.zero /\
     Group.scale p' = Vector3.setScalar 1 /\
     Group.children p' = [cube] /\
     Vector3.x (Group.rotation p') = 0 /\
     Vector3.y (Group.rotation p') = 0) /\
  scene (this w') = [PivotNode] /\
  model (this w') = Some cube /\
  camera (this w') = camera18 /\
  screenHeight (this w') = 1080 /\
  rotationSpeed (this w') = 0 /\
  isAnimating (this w') = true /\
  trace w' =
    [] ++ List.concat (repeat [RequestAnimationFrame; Composer_render] 3).
Proof.
  apply (frames_footprint (fun _ => 0.75) 3 animatingWorld
           (Group.add Group.new cube)).
  reflexivity.
Defined.

(** One tick keeps the pivot within 16 degrees of its target, and turns it
    by at most 0.0015 times that. *)
Lemma lag_step (Math_random : nat -> R) (w : World) (p : Group.t) :
  (forall n, 0 <= Math_random n < 1) ->
  let current := Vector3.z (Group.rotation p) in
  let next := nextTarget Math_random w p in
  Rabs (targetRotation (this w) - current) <= 16 * PI / 180 ->
  Rabs (next - (current + (next - current) * 0.0015)) <= 16 * PI / 180 /\
  Rabs (current + (next - current) * 0.0015 - current)
  <= 0.0015 * (16 * PI / 180).
Proof.
  intros Hrange current next Hlag.
  assert (Hnext : Rabs (next - current) <= 16 * PI / 180).
  { destruct (Rlt_dec (Rabs (current - targetRotation (this w))) 0.001)
      as [Hc | Hf].
    - destruct (nextTarget_converged Math_random w p Hrange Hc)
        as (delta & Hdelta & Hcase).
      fold current next in Hcase. pose proof PI_gt_3.
      destruct Hcase as [-> | ->]; split_Rabs.
    - unfold next. rewrite (nextTarget_approaching Math_random w p Hf).
      exact Hlag. }
  set (t := next) in *. clearbody t. clear Hlag.
  split; split_Rabs.
Qed.

(** X4.  With [Math.random] in [0,1), a pivot that is within 16 degrees of
    its target stays within 16 degrees of its target after any number of
    frames, and the frame that follows turns it by at most 0.0015 times 16
    degrees. *)
Theorem frames_lag_bounded :
  forall (Math_random : nat -> R) (n : nat) (w : World) (p : Group.t),
    (forall k, 0 <= Math_random k < 1) ->
    pivot (this w) = Some p ->
    Rabs (targetRotation (this w) - Vector3.z (Group.rotation p))
    <= 16 * PI / 180 ->
    let w' := exec (frames Math_random n) w in
    exists p' : Group.t,
      pivot (this w') = Some p' /\
      Rabs (targetRotation (this w') - Vector3.z (Group.rotation p'))
      <= 16 * PI / 180 /\
      exists p'' : Group.t,
        pivot (this (exec (animate Math_random) w')) = Some p'' /\
        Rabs (Vector3.z (Group.rotation p'') - Vector3.z (Group.rotation p'))
        <= 0.0015 * (16 * PI / 180).
Proof.
  intros Math_random n. induction n as [|n IH];
    intros w p Hrange Hpivot Hlag w'.
  - subst w'. change (exec (frames Math_random 0) w) with w.
    exists p. split; [exact Hpivot |]. split; [exact Hlag |].
    rewrite (exec_animate_exact Math_random w p Hpivot).
    eexists. split; [reflexivity |].
    cbn [Group.set_rotation Group.rotation Vector3.setZ Vector3.z].
    apply (lag_step Math_random w p Hrange Hlag).
  - unfold w'. rewrite exec_frames_S.
    rewrite (exec_animate_exact Math_random w p Hpivot).
    match goal with
    | |- context [exec (frames Math_random n) ?w1] => set (w1' := w1)
    end.
    apply (IH w1' _ Hrange eq_refl).
    cbn [w1' this targetRotation Group.set_rotation Group.rotation
         Vector3.setZ Vector3.z].
    apply (lag_step Math_random w p Hrange Hlag).
Qed.

Lemma lag_example :
  Rabs (targetRotation (this approachingWorld)
        - Vector3.z (Group.rotation Group.new)) <= 16 * PI / 180.
Proof.
  cbn. pose proof PI_gt_3. split_Rabs.
Defined.

Lemma frames_lag_bounded_witness :
  let w' := exec (frames (fun _ => 0.75) 5) approachingWorld in
  exists p' : Group.t,
    pivot (this w') = Some p' /\
    Rabs (targetRotation (this w') - Vector3.z (Group.rotation p'))
    <= 16 * PI / 180 /\
    exists p'' : Group.t,
      pivot (this (exec (animate (fun _ => 0.75)) w')) = Some p'' /\
      Rabs (Vector3.z (Group.rotation p'') - Vector3.z (Group.rotation p'))
      <= 0.0015 * (16 * PI / 180).
Proof.
  apply (frames_lag_bounded (fun _ => 0.75) 5 approachingWorld Group.new).
  - intros k. lra.
  - reflexivity.
  - exact lag_example.
Defined.

(** Frames in which the tolerance is never reached: the target and the
    random source are left alone and the distance shrinks geometrically. *)
Lemma frames_hold :
  forall (Math_random : nat -> R) (n : nat) (w : World) (p : Group.t),
    pivot (this w) = Some p ->
    let current := Vector3.z (Group.rotation p) in
    let target := targetRotation (this w) in
    (n = 0%nat \/ 0.001 <= 0.9985 ^ (pred n) * Rabs (target - current)) ->
    let w' := exec (frames Math_random n) w in
    targetRotation (this w') = target /\
    randomCalls w' = randomCalls w /\
    exists p' : Group.t,
      pivot (this w') = Some p' /\
      target - Vector3.z (Group.rotation p')
      = 0.9985 ^ n * (target - current).
Proof.
  intros Math_random n. induction n as [|n IH];
    intros w p Hpivot current target Hfar w'.
  - split; [reflexivity |]. split; [reflexivity |].
    exists p. split; [exact Hpivot |]. cbn [pow]. fold current. lra.
  - destruct Hfar as [Hzero | Hfar]; [discriminate Hzero |].
    cbn [pred] in Hfar.
    assert (Hnot : ~ Rabs (current - target) < 0.001).
    { intros Hconv. pose proof (pow_9985_range n) as Hpow.
      pose proof (Rabs_pos (target - current)) as Hge.
      rewrite Rabs_minus_sym in Hconv. nra. }
    unfold w'. rewrite exec_frames_S.
    rewrite (exec_animate_exact Math_random w p Hpivot).
    rewrite (nextTarget_approaching Math_random w p Hnot).
    fold current target.
    destruct (Rlt_dec (Rabs (current - target)) 0.001) as [Hc | _];
      [contradiction |].
    match goal with
    | |- context [exec (frames Math_random n) ?w1] => set (w1' := w1)
    end.
    destruct (IH w1' _ eq_refl) as (Hkeep & Hcalls & p' & Hp' & Hdist).
    + cbn [w1' this targetRotation Group.set_rotation Group.rotation
           Vector3.setZ Vector3.z].
      destruct n as [|m]; [left; reflexivity | right].
      cbn [pred]. cbn [pow] in Hfar.
      replace (target - (current + (target - current) * 0.0015))
        with (0.9985 * (target - current)) by lra.
      rewrite Rabs_mult, (Rabs_right 0.9985) by lra. lra.
    + cbn [w1' this targetRotation randomCalls Group.set_rotation
           Group.rotation Vector3.setZ Vector3.z] in Hkeep, Hcalls, Hdist.
      split; [exact Hkeep |]. split; [exact Hcalls |].
      exists p'. split; [exact Hp' |].
      rewrite Hdist. cbn [pow]. lra.
Qed.

(** X5.  Frames in which the tolerance is never reached keep the target,
    draw no random number, and shrink the distance to the target
    geometrically: after [n] frames the signed distance is [0.9985 ^ n]
    times the initial one, so it has kept its sign and is smaller in
    absolute value by that factor.  The tolerance is not reached during [n]
    frames when the distance after [n - 1] of them is still at least
    0.001. *)
Theorem frames_geometric :
  forall (Math_random : nat -> R) (n : nat) (w : World) (p : Group.t),
    pivot (this w) = Some p ->
    let current := Vector3.z (Group.rotation p) in
    let target := targetRotation (this w) in
    (n = 0%nat \/ 0.001 <= 0.9985 ^ (pred n) * Rabs (target - current)) ->
    let w' := exec (frames Math_random n) w in
    targetRotation (this w') = target /\
    randomCalls w' = randomCalls w /\
    exists p' : Group.t,
      pivot (this w') = Some p' /\
      let current' := Vector3.z (Group.rotation p') in
      target - current' = 0.9985 ^ n * (target - current) /\
      Rabs (target - current') = 0.9985 ^ n * Rabs (target - current) /\
      Rabs (target - current') <= Rabs (target - current) /\
      (0 < target - current -> 0 < target - current') /\
      (target - current < 0 -> target - current' < 0).
Proof.
  intros Math_random n w p Hpivot current target Hfar w'.
  destruct (frames_hold Math_random n w p Hpivot Hfar)
    as (Hkeep & Hcalls & p' & Hp' & Hdist).
  fold w' current target in Hkeep, Hcalls, Hp', Hdist.
  split; [exact Hkeep |]. split; [exact Hcalls |].
  exists p'. split; [exact Hp' |]. cbn zeta.
  pose proof (pow_9985_range n) as Hpow.
  pose proof (Rabs_pos (target - current)) as Hge.
  assert (Habs : Rabs (target - Vector3.z (Group.rotation p'))
                 = 0.9985 ^ n * Rabs (target - current)).
  { rewrite Hdist, Rabs_mult, (Rabs_right (0.9985 ^ n)) by lra.
    reflexivity. }
  split; [exact Hdist |]. split; [exact Habs |].
  split; [rewrite Habs; nra |].
  rewrite Hdist. split; intros Hsign; nra.
Qed.

Lemma geometric_example :
  0.001 <= 0.9985 ^ (pred 3)
           * Rabs (targetRotation (this approachingWorld)
                   - Vector3.z (Group.rotation Group.new)).
Proof.
  cbn. split_Rabs.
Defined.

Lemma frames_geometric_witness :
  let w' := exec (frames (fun _ => 0.75) 3) approachingWorld in
  targetRotation (this w') = 0.1 /\
  randomCalls w' = 0%nat /\
  exists p' : Group.t,
    pivot (this w') = Some p' /\
    let current' := Vector3.z (Group.rotation p') in
    0.1 - current' = 0.9985 ^ 3 * (0.1 - 0) /\
    Rabs (0.1 - current') = 0.9985 ^ 3 * Rabs (0.1 - 0) /\
    Rabs (0.1 - current') <= Rabs (0.1 - 0) /\
    (0 < 0.1 - 0 -> 0 < 0.1 - current') /\
    (0.1 - 0 < 0 -> 0.1 - current' < 0).
Proof.
  apply (frames_geometric (fun _ => 0.75) 3 approachingWorld Group.new).
  - reflexivity.
  - right. exact geometric_example.
Defined.

(** ** How long a target lasts *)

Lemma pow_9985_antitone (n m : nat) :
  (n <= m)%nat -> 0.9985 ^ m <= 0.9985 ^ n.
Proof.
  induction 1 as [|m Hle IH]; [lra |].
  pose proof (pow_9985_range m). cbn [pow]. lra.
Qed.

Lemma pow_9985_100 : 0.86 <= 0.9985 ^ 100.
Proof. cbn [pow]. lra. Qed.

Lemma pow_9985_2500 : 0.023 <= 0.9985 ^ 2500.
Proof.
  change 2500%nat with (100 * 25)%nat. rewrite pow_mult.
  apply Rle_trans with (0.86 ^ 25).
  - cbn [pow]. lra.
  - apply pow_incr. split; [lra | exact pow_9985_100].
Qed.

(** X6.  With [Math.random] in [0,1), a frame that picks a new target is
    followed by at least 2500 frames that keep it: none of them draws a
    random number, and after [n] of them the distance to the target is
    [0.9985 ^ n] times what the picking frame left. *)
Theorem target_held_after_retarget :
  forall (Math_random : nat -> R) (w : World) (p : Group.t),
    (forall k, 0 <= Math_random k < 1) ->
    pivot (this w) = Some p ->
    Rabs (Vector3.z (Group.rotation p) - targetRotation (this w)) < 0.001 ->
    let w1 := exec (animate Math_random) w in
    exists p1 : Group.t,
      pivot (this w1) = Some p1 /\
      forall n : nat,
        (n <= 2500)%nat ->
        let wn := exec (frames Math_random n) w1 in
        targetRotation (this wn) = targetRotation (this w1) /\
        randomCalls wn = randomCalls w1 /\
        exists pn : Group.t,
          pivot (this wn) = Some pn /\
          targetRotation (this w1) - Vector3.z (Group.rotation pn)
          = 0.9985 ^ n
            * (targetRotation (this w1) - Vector3.z (Group.rotation p1)).
Proof.
  intros Math_random w p Hrange Hpivot Hconv w1.
  unfold w1. rewrite (exec_animate_exact Math_random w p Hpivot).
  eexists. split; [reflexivity |].
  intros n Hn.
  match goal with
  | |- context [exec (frames Math_random n) ?w0] => set (w1' := w0)
  end.
  cbn [this targetRotation].
  destruct (nextTarget_converged Math_random w p Hrange Hconv)
    as (delta & Hdelta & Hcase).
  assert (Hfar : 0.001 <= 0.9985 ^ (pred n)
                          * Rabs (targetRotation (this w1')
                                  - Vector3.z (Group.rotation
                                      (Group.set_rotation p
                                         (Vector3.setZ (Group.rotation p)
                                            (Vector3.z (Group.rotation p)
                                             + (nextTarget Math_random w p
                                                - Vector3.z (Group.rotation p))
                                               * 0.0015)))))).
  { cbn [w1' this targetRotation Group.set_rotation Group.rotation
         Vector3.setZ Vector3.z].
    pose proof PI_gt_3 as HPI.
    assert (Hd : 0.049 <= Rabs (nextTarget Math_random w p
                   - (Vector3.z (Group.rotation p)
                      + (nextTarget Math_random w p
                         - Vector3.z (Group.rotation p)) * 0.0015))).
    { destruct Hcase as [-> | ->]; split_Rabs. }
    set (dist := Rabs _) in *. clearbody dist.
    assert (Hpred : (pred n <= 2500)%nat)
      by (apply Nat.le_trans with n; [apply Nat.le_pred_l | exact Hn]).
    pose proof (pow_9985_antitone (pred n) 2500 Hpred) as Hanti.
    pose proof pow_9985_2500 as Hlow.
    revert Hanti Hlow.
    generalize (0.9985 ^ 2500). generalize (0.9985 ^ pred n).
    intros q q' Hanti Hlow. nra. }
  exact (frames_hold Math_random n w1' _ eq_refl (or_intror Hfar)).
Qed.

Lemma target_held_after_retarget_witness :
  let w1 := exec (animate (fun _ => 0.75)) restingWorld in
  exists p1 : Group.t,
    pivot (this w1) = Some p1 /\
    forall n : nat,
      (n <= 2500)%nat ->
      let wn := exec (frames (fun _ => 0.75) n) w1 in
      targetRotation (this wn) = targetRotation (this w1) /\
      randomCalls wn = randomCalls w1 /\
      exists pn : Group.t,
        pivot (this wn) = Some pn /\
        targetRotation (this w1) - Vector3.z (Group.rotation pn)
        = 0.9985 ^ n
          * (targetRotation (this w1) - Vector3.z (Group.rotation p1)).
Proof.
  apply (target_held_after_retarget (fun _ => 0.75) restingWorld Group.new).
  - intros k. lra.
  - reflexivity.
  - exact Rabs_rest_example.
Defined.

(** ** The load callback as a whole *)

Lemma exec_onObjLoad
  (setFromObject : option Group.t -> Object3D.t -> Box3.t)
  (Math_random : nat -> R) (object : Object3D.t) (w : World) :
  exec (onObjLoad setFromObject Math_random object) w =
  if isAnimating (this w)
  then framedWorld setFromObject object w
  else exec (animate Math_random)
         (mkWorld
            (set_isAnimating true (this (framedWorld setFromObject object w)))
            (trace (framedWorld setFromObject object w))
            (randomCalls w)).
Proof.
  unfold exec at 1. rewrite onObjLoad_framed.
  destruct (isAnimating (this w)); reflexivity.
Qed.

(** X7.  The load callback starts the animation at most once.  It always
    leaves [isAnimating] set; what it adds to the trace is console logs,
    followed, only when the animation was not running yet, by one frame
    request and one render.  When the animation was already running, the
    callback draws no random number, keeps the target, and leaves the new
    pivot unturned. *)
Theorem onObjLoad_starts_animation_once :
  forall (setFromObject : option Group.t -> Object3D.t -> Box3.t)
         (Math_random : nat -> R) (object : Object3D.t) (w : World),
    let w' := exec (onObjLoad setFromObject Math_random object) w in
    isAnimating (this w') = true /\
    (exists logs : list Event,
       (forall e, In e logs -> exists text args, e = ConsoleLog text args) /\
       trace w' =
         trace w ++ logs
         ++ (if isAnimating (this w) then []
             else [RequestAnimationFrame; Composer_render])) /\
    (isAnimating (this w) = true ->
     randomCalls w' = randomCalls w /\
     targetRotation (this w') = targetRotation (this w) /\
     exists p : Group.t,
       pivot (this w') = Some p /\ Group.rotation p = Vector3.zero).
Proof.
  intros setFromObject Math_random object w w'.
  destruct (onObjLoad_result setFromObject Math_random object w)
    as (_ & _ & _ & _ & Hanim & Htrace).
  fold w' in Hanim, Htrace.
  split; [exact Hanim |]. split.
  - eexists. split; [| rewrite Htrace; unfold framedWorld; cbn [trace];
                       rewrite <- app_assoc; reflexivity].
    intros e Hin. cbn in Hin.
    destruct Hin as [<- | [<- | [<- | [<- | []]]]];
      eexists; eexists; reflexivity.
  - intros Hrunning. unfold w'. rewrite exec_onObjLoad, Hrunning.
    unfold framedWorld, framedPivot.
    cbn [this randomCalls targetRotation pivot].
    split; [reflexivity |]. split; [reflexivity |].
    eexists. split; reflexivity.
Qed.

Lemma onObjLoad_starts_animation_once_witness :
  let w' :=
    exec (onObjLoad PointCloud.setFromObject (fun _ => 0.75) cube)
      animatingWorld in
  randomCalls w' = 0%nat /\
  targetRotation (this w') = 0.1 /\
  exists p : Group.t,
    pivot (this w') = Some p /\ Group.rotation p = Vector3.zero.
Proof.
  apply (onObjLoad_starts_animation_once PointCloud.setFromObject
           (fun _ => 0.75) cube animatingWorld).
  reflexivity.
Defined.

(** X8.  In a viewer that is not animating yet and whose target angle is
    0, the load callback returns with the first tick already done: two
    random numbers are drawn, the target is between 3 and 16 degrees away
    from 0 on either side, and the new pivot is turned by 0.0015 times the
    target about z and not at all about x and y. *)
Theorem onObjLoad_first_tick :
  forall (setFromObject : option Group.t -> Object3D.t -> Box3.t)
         (Math_random : nat -> R) (object : Object3D.t) (w : World),
    (forall n, 0 <= Math_random n < 1) ->
    isAnimating (this w) = false ->
    targetRotation (this w) = 0 ->
    let w' := exec (onObjLoad setFromObject Math_random object) w in
    let target' := targetRotation (this w') in
    randomCalls w' = S (S (randomCalls w)) /\
    3 * PI / 180 <= Rabs target' <= 16 * PI / 180 /\
    exists p : Group.t,
      pivot (this w') = Some p /\
      Group.rotation p = Vector3.mk 0 0 (target' * 0.0015).
Proof.
  intros setFromObject Math_random object w Hrange Hidle Hzero w' target'.
  unfold target', w'. rewrite exec_onObjLoad, Hidle.
  match goal with
  | |- context [exec (animate Math_random) ?w0] => set (w1 := w0)
  end.
  set (framed := framedPivot setFromObject (camera (this w)) object).
  assert (Hp : pivot (this w1) = Some framed) by reflexivity.
  assert (Hconv : Rabs (Vector3.z (Group.rotation framed)
                        - targetRotation (this w1)) < 0.001).
  { cbn [w1 this targetRotation framed framedPivot Group.rotation
         Vector3.zero Vector3.z framedWorld set_isAnimating].
    rewrite Hzero. split_Rabs. }
  rewrite (exec_animate_exact Math_random w1 framed Hp).
  cbn [this targetRotation randomCalls pivot].
  destruct (Rlt_dec _ _) as [_ | Hn]; [| contradiction].
  destruct (nextTarget_converged Math_random w1 framed Hrange Hconv)
    as (delta & Hdelta & Hcase).
  cbn [framed framedPivot Group.rotation Vector3.zero Vector3.z] in Hcase.
  pose proof PI_gt_3 as HPI.
  split; [reflexivity |]. split.
  - destruct Hcase as [-> | ->]; split_Rabs.
  - eexists. split; [reflexivity |].
    cbn [framed framedPivot Group.set_rotation Group.rotation Vector3.setZ
         Vector3.zero Vector3.x Vector3.y Vector3.z].
    unfold Vector3.setZ, Vector3.zero. cbn [Vector3.x Vector3.y].
    f_equal. lra.
Qed.

Lemma onObjLoad_first_tick_witness :
  let w' :=
    exec (onObjLoad PointCloud.setFromObject (fun _ => 0.75) cube)
      (freshWorld camera18) in
  let target' := targetRotation (this w') in
  randomCalls w' = 2%nat /\
  3 * PI / 180 <= Rabs target' <= 16 * PI / 180 /\
  exists p : Group.t,
    pivot (this w') = Some p /\
    Group.rotation p = Vector3.mk 0 0 (target' * 0.0015).
Proof.
  apply (onObjLoad_first_tick PointCloud.setFromObject (fun _ => 0.75) cube
           (freshWorld camera18)).
  - intros n. lra.
  - reflexivity.
  - reflexivity.
Defined.

(** ** A load that succeeds *)

Lemma loadModel_both_loaded (Materials : Type)
  (setFromObject : option Group.t -> Object3D.t -> Box3.t)
  (Math_random : nat -> R) (net : Loaders Materials) (w : World)
  (materials : Materials) (object : Object3D.t) :
  settled (mtl net "./static/sceneone/obj.mtl") = OnLoad materials ->
  settled (obj net "./static/sceneone/obj.obj" materials) = OnLoad object ->
  exec (loadModel setFromObject Math_random net) w =
  exec (onObjLoad setFromObject Math_random object)
    (mkWorld (this w)
       (trace w ++
        [ConsoleLog "Starting model load..." [];
         MTLLoader_load "./static/sceneone/obj.mtl"]
        ++ map (fun xhr =>
                  ConsoleLog "% loaded"
                    [ArgNumber (loaded xhr / total xhr * 100)])
             (progress (mtl net "./static/sceneone/obj.mtl"))
        ++ [ConsoleLog "MTL loaded successfully" [];
            Materials_preload;
            OBJLoader_load "./static/sceneone/obj.obj"]
        ++ map (fun xhr =>
                  ConsoleLog "% loaded"
                    [ArgNumber (loaded xhr / total xhr * 100)])
             (progress (obj net "./static/sceneone/obj.obj" materials)))
       (randomCalls w)).
Proof.
  intros Hmtl Hobj. unfold loadModel, exec, bind, console_log, emit at 1 2.
  cbn [String.append this trace randomCalls].
  rewrite forEach_onProgress, Hmtl.
  unfold emit at 1 2 3. cbn [this trace randomCalls].
  rewrite forEach_onProgress, Hobj. cbn [this trace randomCalls].
  repeat rewrite <- app_assoc. reflexivity.
Qed.

(** X9.  When both files arrive in a viewer that is not animating, the
    class makes its calls in this order: the material load, the progress
    logs, the preload of the materials, the mesh load, its progress logs,
    the four logs of the callback, one frame request, one render.  The
    pivot is then the last node of the scene and holds the stored model as
    its only child, the model has the vertices of the loaded object, and
    the animation is running. *)
Theorem loadModel_success :
  forall (Materials : Type)
         (setFromObject : option Group.t -> Object3D.t -> Box3.t)
         (Math_random : nat -> R) (net : Loaders Materials) (w : World)
         (materials : Materials) (object : Object3D.t),
    settled (mtl net "./static/sceneone/obj.mtl") = OnLoad materials ->
    settled (obj net "./static/sceneone/obj.obj" materials) = OnLoad object ->
    isAnimating (this w) = false ->
    let w' := exec (loadModel setFromObject Math_random net) w in
    let percent := fun xhr =>
      ConsoleLog "% loaded" [ArgNumber (loaded xhr / total xhr * 100)] in
    (exists size center final : Vector3.t,
       trace w' =
         trace w ++
         [ConsoleLog "Starting model load..." [];
          MTLLoader_load "./static/sceneone/obj.mtl"]
         ++ map percent (progress (mtl net "./static/sceneone/obj.mtl"))
         ++ [ConsoleLog "MTL loaded successfully" [];
             Materials_preload;
             OBJLoader_load "./static/sceneone/obj.obj"]
         ++ map percent
              (progress (obj net "./static/sceneone/obj.obj" materials))
         ++ [ConsoleLog "OBJ loaded successfully" [];
             ConsoleLog "Original size:" [ArgVector size];
             ConsoleLog "Original center:" [ArgVector center];
             ConsoleLog "Final size:" [ArgVector final];
             RequestAnimationFrame;
             Composer_render]) /\
    (exists (p : Group.t) (m : Object3D.t),
       pivot (this w') = Some p /\
       model (this w') = Some m /\
       Group.children p = [m] /\
       Object3D.vertices m = Object3D.vertices object) /\
    scene (this w') = scene (this w) ++ [PivotNode] /\
    isAnimating (this w') = true.
Proof.
  intros Materials setFromObject Math_random net w materials object
    Hmtl Hobj Hidle w' percent.
  unfold w'. rewrite (loadModel_both_loaded _ _ _ _ _ _ _ Hmtl Hobj).
  match goal with
  | |- context [exec (onObjLoad setFromObject Math_random object) ?w0] =>
      set (w0' := w0)
  end.
  destruct (onObjLoad_result setFromObject Math_random object w0')
    as (Hmodel & (p & Hpivot & _ & Hchildren) & Hscene & _ & Hanim & Htrace).
  split; [| split; [| split]].
  - eexists. eexists. eexists. rewrite Htrace.
    unfold framedWorld. cbn [w0' this trace isAnimating]. rewrite Hidle.
    fold percent. repeat rewrite <- app_assoc. reflexivity.
  - exists p. eexists. split; [exact Hpivot |].
    split; [exact Hmodel |]. split; [exact Hchildren | reflexivity].
  - exact Hscene.
  - exact Hanim.
Qed.

Lemma loadModel_success_witness :
  let w' :=
    exec (loadModel PointCloud.setFromObject (fun _ => 0.75) bothLoad)
      (constructed 1920 1080) in
  (exists (p : Group.t) (m : Object3D.t),
     pivot (this w') = Some p /\
     model (this w') = Some m /\
     Group.children p = [m] /\
     Object3D.vertices m = Object3D.vertices cube) /\
  scene (this w') = scene (this (constructed 1920 1080)) ++ [PivotNode] /\
  isAnimating (this w') = true.
Proof.
  apply (loadModel_success unit PointCloud.setFromObject (fun _ => 0.75)
           bothLoad (constructed 1920 1080) tt cube); reflexivity.
Defined.

(** ** Sign of the scale *)

(** X11.  For a camera at a positive distance with a field of view
    strictly between 0 and 180 degrees, and a mesh whose largest measured
    dimension is positive, the stored scale is positive, the same on the
    three axes, and makes the largest dimension 3.2 viewport heights. *)
Theorem onObjLoad_scale_positive :
  forall (setFromObject : option Group.t -> Object3D.t -> Box3.t)
         (Math_random : nat -> R) (object : Object3D.t) (w : World),
    let cam := camera (this w) in
    let size := Box3.getSize (setFromObject None object) in
    let maxDim :=
      Math_max (Vector3.x size) (Vector3.y size) (Vector3.z size) in
    0 < Vector3.length (PerspectiveCamera.position cam) ->
    0 < PerspectiveCamera.fov cam < 180 ->
    0 < maxDim ->
    exists (m : Object3D.t) (s : R),
      model (this (exec (onObjLoad setFromObject Math_random object) w))
      = Some m /\
      Object3D.scale m = Vector3.mk s s s /\
      0 < s /\
      s * maxDim = 3.2 * viewportHeight cam.
Proof.
  intros setFromObject Math_random object w cam size maxDim Hd Hfov Hdim.
  destruct (onObjLoad_result setFromObject Math_random object w)
    as (Hmodel & _).
  eexists. eexists. split; [exact Hmodel |].
  unfold placedObject. cbn [Object3D.scale].
  split; [reflexivity |].
  unfold frameScale. fold cam size maxDim.
  assert (Hh : 0 < viewportHeight cam).
  { unfold viewportHeight. pose proof PI_RGT_0 as HPI.
    assert (0 < tan (PerspectiveCamera.fov cam * PI / 180 / 2))
      by (apply tan_gt_0; nra).
    nra. }
  split.
  - apply Rdiv_lt_0_compat; lra.
  - field. lra.
Qed.

Lemma cube_maxDim_positive :
  let size := Box3.getSize (PointCloud.setFromObject None cube) in
  0 < Math_max (Vector3.x size) (Vector3.y size) (Vector3.z size).
Proof.
  cbn zeta. rewrite cube_size. cbn [Vector3.x Vector3.y Vector3.z]. minmax.
Defined.

Lemma onObjLoad_scale_positive_witness :
  let size := Box3.getSize (PointCloud.setFromObject None cube) in
  let maxDim :=
    Math_max (Vector3.x size) (Vector3.y size) (Vector3.z size) in
  exists (m : Object3D.t) (s : R),
    model (this (exec (onObjLoad PointCloud.setFromObject (fun _ => 0.75) cube)
                   (freshWorld camera18)))
    = Some m /\
    Object3D.scale m = Vector3.mk s s s /\
    0 < s /\
    s * maxDim = 3.2 * viewportHeight camera18.
Proof.
  apply (onObjLoad_scale_positive PointCloud.setFromObject (fun _ => 0.75)
           cube (freshWorld camera18)).
  - cbn [freshWorld this camera]. rewrite length_camera18. lra.
  - cbn. lra.
  - exact cube_maxDim_positive.
Defined.

(** ** The grayscale pass *)

(** X12.  The fragment shader writes the same value to the three colour
    channels, keeps alpha, and the value lies between the smallest and the
    largest of the input channels; colours in [0,1] therefore stay in
    [0,1]. *)
Theorem fragmentShader_gray_between_channels :
  forall (tDiffuse : R * R -> GrayscaleShader.vec4) (vUv : R * R),
    let color := tDiffuse vUv in
    let out := GrayscaleShader.fragmentShader tDiffuse vUv in
    let lo := Rmin (Rmin (GrayscaleShader.r color) (GrayscaleShader.g color))
                (GrayscaleShader.b color) in
    let hi := Rmax (Rmax (GrayscaleShader.r color) (GrayscaleShader.g color))
                (GrayscaleShader.b color) in
    GrayscaleShader.g out = GrayscaleShader.r out /\
    GrayscaleShader.b out = GrayscaleShader.r out /\
    GrayscaleShader.a out = GrayscaleShader.a color /\
    lo <= GrayscaleShader.r out <= hi /\
    (0 <= lo -> hi <= 1 -> 0 <= GrayscaleShader.r out <= 1).
Proof.
  intros tDiffuse vUv color out lo hi.
  unfold out, GrayscaleShader.fragmentShader. fold color.
  cbn [GrayscaleShader.r GrayscaleShader.g GrayscaleShader.b
       GrayscaleShader.a].
  unfold GrayscaleShader.dot, GrayscaleShader.rgb.
  cbn [Vector3.x Vector3.y Vector3.z].
  assert (Hbetween :
    lo <= GrayscaleShader.r color * 0.299 + GrayscaleShader.g color * 0.587
          + GrayscaleShader.b color * 0.114 <= hi).
  { unfold lo, hi. split; minmax. }
  repeat split; try reflexivity; lra.
Qed.

Lemma fragmentShader_gray_between_channels_witness :
  let out :=
    GrayscaleShader.fragmentShader
      (flatImage (GrayscaleShader.mk 0.2 0.4 0.6 0.5)) (0.5, 0.5) in
  0 <= GrayscaleShader.r out <= 1.
Proof.
  apply (fragmentShader_gray_between_channels
           (flatImage (GrayscaleShader.mk 0.2 0.4 0.6 0.5)) (0.5, 0.5));
    cbn; minmax.
Defined.

(** X13.  The grayscale pass is idempotent: run on its own output it
    returns that output. *)
Theorem fragmentShader_idempotent :
  forall (tDiffuse : R * R -> GrayscaleShader.vec4) (vUv : R * R),
    GrayscaleShader.fragmentShader
      (GrayscaleShader.fragmentShader tDiffuse) vUv
    = GrayscaleShader.fragmentShader tDiffuse vUv.
Proof.
  intros tDiffuse vUv. unfold GrayscaleShader.fragmentShader.
  cbn [GrayscaleShader.a].
  unfold GrayscaleShader.dot, GrayscaleShader.rgb.
  cbn [GrayscaleShader.r GrayscaleShader.g GrayscaleShader.b
       Vector3.x Vector3.y Vector3.z].
  f_equal; lra.
Qed.

(** ** Every target is reached *)

Lemma pow_9985_4000 : 0.9985 ^ 4000 <= 0.0026.
Proof.
  change 4000%nat with (100 * 40)%nat. rewrite pow_mult.
  apply Rle_trans with (0.861 ^ 40).
  - apply pow_incr. split; [| cbn [pow]; lra].
    pose proof (pow_9985_range 100). lra.
  - cbn [pow]. lra.
Qed.

(** The first frame count at which a distance [D] has dropped below the
    tolerance. *)
Lemma first_below_tolerance (D : R) (N : nat) :
  0.9985 ^ N * D < 0.001 ->
  exists n : nat,
    (n <= N)%nat /\
    0.9985 ^ n * D < 0.001 /\
    (n = 0%nat \/ 0.001 <= 0.9985 ^ (pred n) * D).
Proof.
  induction N as [|N IH]; intros Hlow.
  - exists 0%nat. split; [apply le_n |]. split; [exact Hlow | left; reflexivity].
  - destruct (Rlt_dec (0.9985 ^ N * D) 0.001) as [Hlt | Hge].
    + destruct (IH Hlt) as (n & Hn & Hbelow & Hfirst).
      exists n. split; [apply le_S; exact Hn |]. split; assumption.
    + exists (S N). split; [apply le_n |]. split; [exact Hlow |].
      right. cbn [pred]. lra.
Qed.

(** X15.  A pivot within 16 degrees of its target comes within the
    tolerance of 0.001 rad of it after at most 4000 frames, the target
    being the same all along: the test of line 113 then holds. *)
Theorem target_reached_within_4000_frames :
  forall (Math_random : nat -> R) (w : World) (p : Group.t),
    pivot (this w) = Some p ->
    Rabs (targetRotation (this w) - Vector3.z (Group.rotation p))
    <= 16 * PI / 180 ->
    exists n : nat,
      (n <= 4000)%nat /\
      let wn := exec (frames Math_random n) w in
      targetRotation (this wn) = targetRotation (this w) /\
      exists pn : Group.t,
        pivot (this wn) = Some pn /\
        Rabs (Vector3.z (Group.rotation pn) - targetRotation (this wn))
        < 0.001.
Proof.
  intros Math_random w p Hpivot Hlag.
  set (D := Rabs (targetRotation (this w) - Vector3.z (Group.rotation p)))
    in *.
  assert (Hlow : 0.9985 ^ 4000 * D < 0.001).
  { pose proof PI_4 as HPI. pose proof (Rabs_pos
      (targetRotation (this w) - Vector3.z (Group.rotation p))) as HD.
    fold D in HD. pose proof pow_9985_4000 as Hpow.
    pose proof (pow_9985_range 4000) as Hrange.
    revert Hpow Hrange. generalize (0.9985 ^ 4000). intros q Hpow Hrange.
    nra. }
  destruct (first_below_tolerance D 4000 Hlow) as (n & Hn & Hbelow & Hfirst).
  clear Hlow.
  exists n. split; [exact Hn |].
  destruct (frames_hold Math_random n w p Hpivot Hfirst)
    as (Hkeep & _ & pn & Hpn & Hdist).
  split; [exact Hkeep |].
  exists pn. split; [exact Hpn |].
  rewrite Hkeep, Rabs_minus_sym, Hdist, Rabs_mult.
  pose proof (pow_9985_range n) as Hrange.
  rewrite (Rabs_right (0.9985 ^ n)) by lra. exact Hbelow.
Qed.

Lemma target_reached_within_4000_frames_witness :
  exists n : nat,
    (n <= 4000)%nat /\
    let wn := exec (frames (fun _ => 0.75) n) approachingWorld in
    targetRotation (this wn) = targetRotation (this approachingWorld) /\
    exists pn : Group.t,
      pivot (this wn) = Some pn /\
      Rabs (Vector3.z (Group.rotation pn) - targetRotation (this wn))
      < 0.001.
Proof.
  apply (target_reached_within_4000_frames (fun _ => 0.75) approachingWorld
           Group.new).
  - reflexivity.
  - exact lag_example.
Defined.

(** * The inputs the class receives *)

(** ** Order of the measurements *)



(** ** The camera the class computes with *)

Lemma exec_onWindowResize (innerWidth : R) (w : World) :
  exec (onWindowResize innerWidth) w =
  mkWorld
    (set_camera
       (PerspectiveCamera.set_aspect (camera (this w))
          (innerWidth / screenHeight (this w)))
       (this w))
    (trace w ++
     [Camera_updateProjectionMatrix;
      Renderer_setSize innerWidth (screenHeight (this w));
      Composer_setSize innerWidth (screenHeight (this w))])
    (randomCalls w).
Proof.
  unfold onWindowResize, exec, bind, modifyThis, emit, getThis.
  cbn [snd this trace randomCalls set_camera screenHeight].
  repeat rewrite <- app_assoc. reflexivity.
Qed.






(** ** Resizing *)

Lemma exec_resizes (innerWidths : list R) :
  forall w : World,
    exists (aspect : R) (calls : list Event),
      exec (resizes innerWidths) w =
      mkWorld
        (set_camera (PerspectiveCamera.set_aspect (camera (this w)) aspect)
           (this w))
        (trace w ++ calls) (randomCalls w) /\
      forall e, In e calls ->
        e = Camera_updateProjectionMatrix \/
        (exists width height, e = Renderer_setSize width height) \/
        (exists width height, e = Composer_setSize width height).
Proof.
  induction innerWidths as [|x l IH]; intros w.
  - exists (PerspectiveCamera.aspect (camera (this w))), [].
    split; [| intros e []].
    rewrite app_nil_r.
    destruct w as [[sc md pv rs tr sh [f a n fr ps] an] t rc]. reflexivity.
  - destruct (IH (exec (onWindowResize x) w)) as (aspect & calls & Heq & Hin).
    exists aspect. eexists. split.
    + change (exec (resizes (x :: l)) w)
        with (exec (resizes l) (exec (onWindowResize x) w)).
      rewrite Heq, exec_onWindowResize. cbn [this trace randomCalls].
      rewrite <- app_assoc. reflexivity.
    + intros e He. apply in_app_or in He. destruct He as [He | He].
      * cbn in He. destruct He as [<- | [<- | [<- | []]]].
        -- left. reflexivity.
        -- right. left. eexists. eexists. reflexivity.
        -- right. right. eexists. eexists. reflexivity.
      * apply Hin. exact He.
Qed.

(** X10.  Resize events that arrive before the mesh change nothing about
    the framing.  They add only their own calls (the projection update and
    the sizing of renderer and composer) to the trace and leave the
    viewport height as it was; the load callback then stores the same
    model, pivot and target, draws the same random numbers and makes the
    same calls as it would without them. *)
Theorem resizes_do_not_change_framing :
  forall (setFromObject : option Group.t -> Object3D.t -> Box3.t)
         (Math_random : nat -> R) (object : Object3D.t) (w : World)
         (innerWidths : list R),
    let resized := exec (resizes innerWidths) w in
    let a := exec (onObjLoad setFromObject Math_random object) resized in
    let b := exec (onObjLoad setFromObject Math_random object) w in
    viewportHeight (camera (this resized)) = viewportHeight (camera (this w))
    /\ (exists calls : list Event,
          trace resized = trace w ++ calls /\
          forall e, In e calls ->
            e = Camera_updateProjectionMatrix \/
            (exists width height, e = Renderer_setSize width height) \/
            (exists width height, e = Composer_setSize width height))
    /\ model (this a) = model (this b)
    /\ pivot (this a) = pivot (this b)
    /\ targetRotation (this a) = targetRotation (this b)
    /\ scene (this a) = scene (this b)
    /\ isAnimating (this a) = isAnimating (this b)
    /\ randomCalls a = randomCalls b
    /\ exists added : list Event,
         trace b = trace w ++ added /\ trace a = trace resized ++ added.
Proof.
  intros setFromObject Math_random object w innerWidths resized a b.
  destruct (exec_resizes innerWidths w) as (aspect & calls & Heq & Hcalls).
  unfold a, b, resized. rewrite Heq. cbn [this trace camera set_camera].
  split; [reflexivity |].
  split; [exists calls; split; [reflexivity | exact Hcalls] |].
  rewrite !exec_onObjLoad. cbn [this isAnimating set_camera].
  destruct (isAnimating (this w)) eqn:Hanim.
  - repeat (split; [reflexivity |]).
    unfold framedWorld. cbn [trace this]. eexists. split; reflexivity.
  - rewrite (exec_animate_exact Math_random _
               (framedPivot setFromObject (camera (this w)) object))
      by reflexivity.
    rewrite (exec_animate_exact Math_random _
               (framedPivot setFromObject (camera (this w)) object))
      by reflexivity.
    repeat (split; [reflexivity |]).
    unfold framedWorld. cbn [trace this].
    eexists. split; [rewrite <- app_assoc; reflexivity |].
    symmetry. apply app_assoc.
Qed.
